(** * idlarz: the tile / resource engine of the game store

    A shallow embedding of [src/stores/gameStore.ts]: the grid of tiles,
    the rate calculator, the adjacency and affordability predicates and the
    three store operations [buyTile], [upgradeCastle] and [tick].

    Conventions of the embedding.
    - A JavaScript object keyed by resource names is a finite map
      [gmap resource num]; reading a key that is not there gives
      [undefined], which arithmetic and comparisons turn into [NaN]
      ([to_num]).
    - A JavaScript [number] that holds a quantity is an element of an
      abstract type [num] with the operators the store uses ([Number]);
      the numbers of the run time are its instance [Float64], the IEEE
      doubles, and what depends on their arithmetic is stated there.
      A [number] that holds a coordinate or a level is an integer [Z].
    - A [TypeError] / [RangeError] is the [None] of the option monad.  The
      store calls [set] last, so an operation that throws leaves the state
      as it was.
    - The configuration module [@/config/gameConfig] is a parameter
      ([GameConfig]). *)

From Stdlib Require Import ZArith PrimFloat Uint63.
From Stdlib Require SpecFloat FloatOps FloatAxioms.
From stdpp Require Import base tactics option list gmap strings fin_maps.

Local Open Scope Z_scope.

(** ** Numbers *)

(** The operators of JavaScript numbers that the store uses.  [NaN] is what
    [ToNumber(undefined)] returns; [lit] injects the integer literals of the
    source ([1.0], [1000]); [Math_pow] is called with an integer exponent
    ([level - 1]). *)
Class Number (num : Type) := {
  num_add : num → num → num;
  num_sub : num → num → num;
  num_mul : num → num → num;
  num_div : num → num → num;
  num_lt : num → num → bool;
  num_ge : num → num → bool;
  Math_pow : num → Z → num;
  NaN : num;
  lit : Z → num
}.

(** ** Resources *)

(** [keyof Resources] (types/game.ts). *)
Inductive resource := gold | wood | stone | coal | food | xp.

#[global] Instance resource_eq_dec : EqDecision resource.
Proof. solve_decision. Defined.

#[global] Instance resource_countable : Countable resource.
Proof.
  refine (inj_countable'
    (λ r, match r with
          | gold => 0%nat | wood => 1%nat | stone => 2%nat
          | coal => 3%nat | food => 4%nat | xp => 5%nat
          end)
    (λ n, match n with
          | 0%nat => gold | 1%nat => wood | 2%nat => stone
          | 3%nat => coal | 4%nat => food | _ => xp
          end) _).
  by intros [].
Defined.

(** A resource object, [Resources] or [Partial<Resources>], is a
    [gmap resource num]. *)

(** [ToNumber] of a property read: a missing property is [undefined]. *)
Definition to_num `{Number num} (v : option num) : num :=
  match v with
  | Some n => n
  | None => NaN
  end.

(** [Object.entries(src).forEach(([r, v]) => { acc[r] = f(r, v, acc[r]) })]:
    every entry of [src] rewrites its own key of [acc]. *)
Definition forEach_entry {num V : Type}
    (f : resource → V → option num → num)
    (src : gmap resource V) (acc : gmap resource num) : gmap resource num :=
  map_fold (λ r v a, <[r := f r v (a !! r)]> a) acc src.

(** ** Data model (types/game.ts) *)

Inductive UpgradeCost (num : Type) :=
  | CostAbsent                       (* the property is not there *)
  | CostNull                         (* null: no further upgrade *)
  | CostOf (c : gmap resource num).
Arguments CostAbsent {num}.
Arguments CostNull {num}.
Arguments CostOf {num} c.

Record Tile (num : Type) := mkTile {
  biome : string;
  isOwned : bool;
  level : option Z;
  upgradeCost : UpgradeCost num
}.
Arguments mkTile {num}.
Arguments biome {num}.
Arguments isOwned {num}.
Arguments level {num}.
Arguments upgradeCost {num}.

Record ResourceRates (num : Type) := mkRates {
  base : gmap resource num;
  modifiers : gmap resource num;
  total : gmap resource num
}.
Arguments mkRates {num}.
Arguments base {num}.
Arguments modifiers {num}.
Arguments total {num}.

Record GameState (num : Type) := mkState {
  tiles : list (list (Tile num));
  resources : gmap resource num;
  resourceRates : ResourceRates num;
  resourceModifiers : gmap resource num
}.
Arguments mkState {num}.
Arguments tiles {num}.
Arguments resources {num}.
Arguments resourceRates {num}.
Arguments resourceModifiers {num}.

(** ** Configuration (config/gameConfig, a parameter) *)

Record BiomeInfo (num : Type) := mkBiome {
  resourceModifiers_of : gmap resource num
}.
Arguments mkBiome {num}.
Arguments resourceModifiers_of {num}.

Record CastleUpgrade (num : Type) := mkCastleUpgrade {
  maxLevel : Z;
  levelMultiplier : num;
  upgradeCosts : list (gmap resource num)
}.
Arguments mkCastleUpgrade {num}.
Arguments maxLevel {num}.
Arguments levelMultiplier {num}.
Arguments upgradeCosts {num}.

(** [BIOMES] is kept as its [Object.entries], in the order of the object. *)
Class GameConfig (num : Type) := {
  GRID_SIZE : Z;
  GRID_HEIGHT : Z;
  BIOMES : list (string * BiomeInfo num);
  CASTLE_BASE_RATES : gmap resource num;
  CASTLE_UPGRADE : CastleUpgrade num;
  INITIAL_RESOURCES : gmap resource num;
  BASE_GENERATION_RATES : gmap resource num;
  TILE_PURCHASE_COST : num
}.

(** ** Arrays *)

(** [a[i]] for an integer [i]: [undefined] outside the array. *)
Definition index {A : Type} (a : list A) (i : Z) : option A :=
  if i <? 0 then None else a !! Z.to_nat i.

(** [tiles[y][x]] followed by a property read: a [TypeError] when the row
    or the tile is not there. *)
Definition tileAt {num : Type} (t : list (list (Tile num))) (x y : Z)
    : option (Tile num) :=
  row ← index t y; index row x.

(** [newTiles = [...tiles]; newTiles[y] = [...newTiles[y]]; newTiles[y][x] = v]
    for a cell that is in the grid. *)
Definition setTile {num : Type} (t : list (list (Tile num))) (x y : Z)
    (v : Tile num) : list (list (Tile num)) :=
  alter (λ row, <[Z.to_nat x := v]> row) (Z.to_nat y) t.

Section Store.
Context {num : Type} `{!Number num} `{!GameConfig num}.

Definition GRID_CENTER_X : Z := GRID_SIZE / 2.
Definition GRID_CENTER_Y : Z := GRID_HEIGHT / 2.

Definition emptyTile : Tile num := mkTile "empty" false None CostAbsent.

Definition initialCastle : Tile num :=
  mkTile "castle" true (Some 1)
    (match upgradeCosts CASTLE_UPGRADE !! 0%nat with
     | Some c => CostOf c
     | None => CostAbsent
     end).

(** The largest length of an array: [Array(n)] is a [RangeError] for an
    [n] that is not an integer of [0 .. 2^32 - 1]. *)
Definition MAX_ARRAY_LENGTH : Z := 4294967295.

Definition validLength (n : Z) : bool :=
  (0 <=? n) && (n <=? MAX_ARRAY_LENGTH).

(** [grid[GRID_CENTER_Y][GRID_CENTER_X] = castle]: a [TypeError] when the
    centre row is not there; the assignment writes inside the row, or
    appends when the row is empty ([cx = 0 = length]);
    [cx = floor (GRID_SIZE / 2)] is never beyond the length. *)
Definition placeCastle (grid : list (list (Tile num)))
    : option (list (list (Tile num))) :=
  row ← index grid GRID_CENTER_Y;
  let row' := if GRID_CENTER_X <? GRID_SIZE
              then <[Z.to_nat GRID_CENTER_X := initialCastle]> row
              else row ++ [initialCastle] in
  Some (<[Z.to_nat GRID_CENTER_Y := row']> grid).

(** The grid before the castle is placed: [GRID_HEIGHT] rows of
    [GRID_SIZE] empty tiles. *)
Definition emptyGrid : list (list (Tile num)) :=
  replicate (Z.to_nat GRID_HEIGHT) (replicate (Z.to_nat GRID_SIZE) emptyTile).

(** [Array(GRID_HEIGHT)] and, in the callback of [map], [Array(GRID_SIZE)]
    throw on a length that is not valid.  With no row at all the callback
    never runs, and the read of the centre row throws instead. *)
Definition createInitialGrid : option (list (list (Tile num))) :=
  if negb (validLength GRID_HEIGHT) then None
  else if (0 <? GRID_HEIGHT) && negb (validLength GRID_SIZE) then None
  else placeCastle emptyGrid.

(** *** calculateResourceRates *)

(** [BIOMES[name]]. *)
Definition BIOMES_get (name : string) : option (BiomeInfo num) :=
  (list_to_map BIOMES : gmap string (BiomeInfo num)) !! name.

(** The body of the castle branch: [base[resource] += rate * multiplier]
    for every entry of [CASTLE_BASE_RATES]. *)
Definition applyCastle (tile : Tile num) (b : gmap resource num) : gmap resource num :=
  let lvl := match level tile with
             | Some l => if l =? 0 then 1 else l
             | None => 1
             end in
  let multiplier := Math_pow (levelMultiplier CASTLE_UPGRADE) (lvl - 1) in
  forEach_entry (λ _ rate cur, num_add (to_num cur) (num_mul rate multiplier))
    CASTLE_BASE_RATES b.

(** The inner loop of the castle scan, over the columns [xs] of row [y]:
    [break] leaves this loop at the first owned castle of the row. *)
Fixpoint castleRow (t : list (list (Tile num))) (y : Z) (xs : list Z)
    (b : gmap resource num) : option (gmap resource num) :=
  match xs with
  | [] => Some b
  | x :: xs' =>
      tile ← tileAt t x y;
      if isOwned tile && String.eqb (biome tile) "castle"
      then Some (applyCastle tile b)
      else castleRow t y xs' b
  end.

(** The outer loop: it has no [break] of its own and goes on with the rows
    below. *)
Fixpoint castleScan (t : list (list (Tile num))) (ys : list Z)
    (b : gmap resource num) : option (gmap resource num) :=
  match ys with
  | [] => Some b
  | y :: ys' =>
      b' ← castleRow t y (seqZ 0 GRID_SIZE) b;
      castleScan t ys' b'
  end.

(** The body of the modifier loop for one tile. *)
Definition applyModifiers (tile : Tile num) (m : gmap resource num)
    : option (gmap resource num) :=
  if isOwned tile then
    info ← BIOMES_get (biome tile);
    Some (forEach_entry (λ _ modifier cur, num_mul (to_num cur) modifier)
            (resourceModifiers_of info) m)
  else Some m.

Fixpoint modifierRow (t : list (list (Tile num))) (y : Z) (xs : list Z)
    (m : gmap resource num) : option (gmap resource num) :=
  match xs with
  | [] => Some m
  | x :: xs' =>
      tile ← tileAt t x y;
      m' ← applyModifiers tile m;
      modifierRow t y xs' m'
  end.

Fixpoint modifierScan (t : list (list (Tile num))) (ys : list Z)
    (m : gmap resource num) : option (gmap resource num) :=
  match ys with
  | [] => Some m
  | y :: ys' =>
      m' ← modifierRow t y (seqZ 0 GRID_SIZE) m;
      modifierScan t ys' m'
  end.

Definition initialModifiers : gmap resource num :=
  <[gold := lit 1]> (<[wood := lit 1]> (<[stone := lit 1]>
    (<[coal := lit 1]> (<[food := lit 1]> ∅)))).

Definition calculateResourceRates (t : list (list (Tile num)))
    : option (ResourceRates num) :=
  let base0 := BASE_GENERATION_RATES in
  let total0 := base0 in
  b ← castleScan t (seqZ 0 GRID_HEIGHT) base0;
  m ← modifierScan t (seqZ 0 GRID_HEIGHT) initialModifiers;
  let tot := forEach_entry
               (λ r _ _, num_mul (to_num (b !! r)) (to_num (m !! r)))
               total0 total0 in
  Some (mkRates b m tot).

(** *** isAdjacentToOwned *)

Definition directions : list (Z * Z) := [(-1, 0); (1, 0); (0, -1); (0, 1)].

(** [directions.some(...)]: stops at the first direction that answers
    true; the tile is read only for a neighbour inside the grid bounds. *)
Fixpoint someDirection (t : list (list (Tile num))) (x y : Z)
    (ds : list (Z * Z)) : option bool :=
  match ds with
  | [] => Some false
  | (dx, dy) :: ds' =>
      let newX := x + dx in
      let newY := y + dy in
      hit ← (if (0 <=? newX) && (newX <? GRID_SIZE) &&
                (0 <=? newY) && (newY <? GRID_HEIGHT)
             then isOwned <$> tileAt t newX newY
             else Some false);
      if hit : bool then Some true else someDirection t x y ds'
  end.

Definition isAdjacentToOwned (t : list (list (Tile num))) (x y : Z)
    : option bool :=
  someDirection t x y directions.

(** *** canAffordCost *)

(** [cost: number | Resources]. *)
Definition canAffordCost (res : gmap resource num)
    (cost : num + gmap resource num) : bool :=
  match cost with
  | inl n => num_ge (to_num (res !! gold)) n
  | inr c =>
      forallb (λ e, num_ge (to_num (res !! e.1)) e.2) (map_to_list c)
  end.

(** *** buyTile *)

Definition excludedBiomes : list string := ["empty"; "castle"; "grounds"].

Definition availableBiomes : list string :=
  (filter (λ e, e.1 ∉ excludedBiomes) BIOMES).*1.

(** [availableBiomes[rnd]].  An index outside the list reads [undefined];
    as the biome of a tile that value behaves as the name "undefined":
    [undefined === 'castle'] is false and [BIOMES[undefined]] reads the
    property of that name. *)
Definition pickBiome (rnd : nat) : string :=
  default "undefined" (availableBiomes !! rnd).

(** [rnd] is the value of
    [Math.floor(Math.random() * availableBiomes.length)]. *)
Definition buyTile (rnd : nat) (x y : Z) (state : GameState num)
    : option (bool * GameState num) :=
  tile ← tileAt (tiles state) x y;
  if isOwned tile then Some (false, state)
  else
    adjacent ← isAdjacentToOwned (tiles state) x y;
    if negb adjacent then Some (false, state)
    else if num_lt (to_num (resources state !! gold)) TILE_PURCHASE_COST
    then Some (false, state)
    else
      let randomBiome := pickBiome rnd in
      let newTiles :=
        setTile (tiles state) x y (mkTile randomBiome true None CostAbsent) in
      newRates ← calculateResourceRates newTiles;
      Some (true,
            mkState newTiles
              (<[gold := num_sub (to_num (resources state !! gold))
                           TILE_PURCHASE_COST]> (resources state))
              newRates
              (modifiers newRates)).

(** *** upgradeCastle *)

(** The inner loop of the castle search: the first tile of row [y] whose
    biome is the castle, with its column. *)
Fixpoint findCastleRow (t : list (list (Tile num))) (y : Z) (xs : list Z)
    : option (option (Tile num * Z)) :=
  match xs with
  | [] => Some None
  | x :: xs' =>
      tile ← tileAt t x y;
      if String.eqb (biome tile) "castle" then Some (Some (tile, x))
      else findCastleRow t y xs'
  end.

(** The outer loop, left by [if (castle) break]. *)
Fixpoint findCastle (t : list (list (Tile num))) (ys : list Z)
    : option (option (Tile num * Z * Z)) :=
  match ys with
  | [] => Some None
  | y :: ys' =>
      found ← findCastleRow t y (seqZ 0 GRID_SIZE);
      match found with
      | Some (tile, x) => Some (Some (tile, x, y))
      | None => findCastle t ys'
      end
  end.

(** [CASTLE_UPGRADE.upgradeCosts[level] || null]. *)
Definition nextUpgradeCost (lvl : Z) : UpgradeCost num :=
  match index (upgradeCosts CASTLE_UPGRADE) lvl with
  | Some c => CostOf c
  | None => CostNull
  end.

Definition upgradeCastle (state : GameState num)
    : option (bool * GameState num) :=
  found ← findCastle (tiles state) (seqZ 0 GRID_HEIGHT);
  match found with
  | None => Some (false, state)
  | Some (castle, castleX, castleY) =>
      match upgradeCost castle, level castle with
      | CostOf cost, Some lvl =>
          if lvl =? 0 then Some (false, state)
          else if maxLevel CASTLE_UPGRADE <=? lvl then Some (false, state)
          else if negb (canAffordCost (resources state) (inr cost))
          then Some (false, state)
          else
            let newTiles :=
              setTile (tiles state) castleX castleY
                (mkTile (biome castle) (isOwned castle) (Some (lvl + 1))
                   (nextUpgradeCost lvl)) in
            let newResources :=
              forEach_entry (λ _ amount cur, num_sub (to_num cur) amount)
                cost (resources state) in
            newRates ← calculateResourceRates newTiles;
            Some (true,
                  mkState newTiles newResources newRates (modifiers newRates))
      | _, _ => Some (false, state)
      end
  end.

(** *** tick *)

Definition tick (deltaTime : num) (state : GameState num) : GameState num :=
  let secondsElapsed := num_div deltaTime (lit 1000) in
  let newResources :=
    forEach_entry
      (λ _ rate cur, num_add (to_num cur) (num_mul rate secondsElapsed))
      (total (resourceRates state)) (resources state) in
  mkState (tiles state) newResources (resourceRates state)
    (resourceModifiers state).

(** *** Store creation and the states it can reach *)

Definition initialState : option (GameState num) :=
  initialGrid ← createInitialGrid;
  initialRates ← calculateResourceRates initialGrid;
  Some (mkState initialGrid INITIAL_RESOURCES initialRates
          (modifiers initialRates)).

(** One store call that returns (with either answer). *)
Inductive step : GameState num → GameState num → Prop :=
  | step_buyTile rnd x y s ok s' :
      buyTile rnd x y s = Some (ok, s') → step s s'
  | step_upgradeCastle s ok s' :
      upgradeCastle s = Some (ok, s') → step s s'
  | step_tick deltaTime s :
      step s (tick deltaTime s).

Inductive reachable : GameState num → Prop :=
  | reachable_init s : initialState = Some s → reachable s
  | reachable_step s s' : reachable s → step s s' → reachable s'.

(** *** The caller: the Tile component *)

(** The [isAdjacent] memo of the Tile component (components/game/Tile.tsx):
    [tiles] may still be missing ([!tiles]), and the optional chaining
    [tiles[adjY]?.[adjX]?.isOwned] reads a missing row or tile as not
    owned. *)
Definition Tile_isAdjacent (tilesProp : option (list (list (Tile num))))
    (isOwnedProp : bool) (x y : Z) : bool :=
  match tilesProp with
  | None => false
  | Some t =>
      if isOwnedProp then false
      else
        existsb
          (λ adj : Z * Z,
             (0 <=? adj.1) && (adj.1 <? GRID_SIZE) &&
             (0 <=? adj.2) && (adj.2 <? GRID_HEIGHT) &&
             match tileAt t adj.1 adj.2 with
             | Some tile => isOwned tile
             | None => false
             end)
          [(x - 1, y); (x + 1, y); (x, y - 1); (x, y + 1)]
  end.

(** What a click on a tile ends in: the branch of [handleClick] that is
    taken (its sounds, dialogs and timers are left out). *)
Inductive ClickAction :=
  | ClickSelectBiome
  | ClickCollectChest
  | ClickCastleDialog
  | ClickBuildingDialog
  | ClickBuyTile
  | ClickShake
  | ClickNothing.

(** [handleClick] of the Tile component.  [selecting] is
    [isBiomeSelectionActive && pendingTileCoords], [hasBuilding] is the
    truth of the [building] prop, [costPositive] is [cost > 0]. *)
Definition handleClick (selecting isOwnedProp hasChest : bool)
    (biomeProp : string) (levelProp : option Z) (hasBuilding : bool)
    (isAdjacent canAfford costPositive : bool) : ClickAction :=
  if selecting then ClickSelectBiome
  else if isOwnedProp && hasChest then ClickCollectChest
  else if isOwnedProp then
    if String.eqb biomeProp "castle" then ClickCastleDialog
    else if String.eqb biomeProp "grounds" &&
            match levelProp with
            | Some l => (l =? 0) || (l <? 2)
            | None => true
            end && negb hasBuilding
    then ClickBuildingDialog
    else ClickNothing
  else if isAdjacent && negb isOwnedProp then
    if canAfford then ClickBuyTile
    else if costPositive then ClickShake
    else ClickNothing
  else ClickNothing.

(** *** The two committed states *)

(** State after a purchase at [(x, y)] that drew [randomBiome]. *)
Definition boughtState (s : GameState num) (x y : Z) (randomBiome : string)
    (newRates : ResourceRates num) : GameState num :=
  mkState
    (setTile (tiles s) x y (mkTile randomBiome true None CostAbsent))
    (<[gold := num_sub (to_num (resources s !! gold)) TILE_PURCHASE_COST]>
       (resources s))
    newRates (modifiers newRates).

(** State after an upgrade of the castle found at [(cx, cy)]. *)
Definition upgradedState (s : GameState num) (castle : Tile num) (cx cy : Z)
    (lvl : Z) (cost : gmap resource num) (newRates : ResourceRates num)
    : GameState num :=
  mkState
    (setTile (tiles s) cx cy
       (mkTile (biome castle) (isOwned castle) (Some (lvl + 1))
          (nextUpgradeCost lvl)))
    (forEach_entry (λ _ amount cur, num_sub (to_num cur) amount)
       cost (resources s))
    newRates (modifiers newRates).

(** *** Predicates of the statements *)

(** The catalog's upgrade cost for a castle of level [lvl]: the store gives
    [upgradeCosts[0]] to the level 1 castle and [upgradeCosts[lvl - 1]] to
    the castle that reaches level [lvl]. *)
Definition catalogCost (lvl : Z) : option (gmap resource num) :=
  index (upgradeCosts CASTLE_UPGRADE) (lvl - 1).


Definition inBounds (x y : Z) : Prop :=
  (0 ≤ x < GRID_SIZE) ∧ (0 ≤ y < GRID_HEIGHT).

(** The cell is there, and when it is owned its biome is in the catalog:
    what the rate calculator needs to get past it. *)
Definition cellOk (t : list (list (Tile num))) (x y : Z) : bool :=
  match tileAt t x y with
  | Some tile =>
      implb (isOwned tile)
        (match BIOMES_get (biome tile) with Some _ => true | None => false end)
  | None => false
  end.

Definition gridOk (t : list (list (Tile num))) : bool :=
  forallb (λ y, forallb (λ x, cellOk t x y) (seqZ 0 GRID_SIZE))
    (seqZ 0 GRID_HEIGHT).

Definition ownedAt (t : list (list (Tile num))) (x y : Z) : Prop :=
  inBounds x y ∧ ∃ tile, tileAt t x y = Some tile ∧ isOwned tile = true.

(** Left, right, up or down; no diagonal. *)
Definition ownedNeighbour (t : list (list (Tile num))) (x y : Z) : Prop :=
  ownedAt t (x - 1) y ∨ ownedAt t (x + 1) y ∨
  ownedAt t x (y - 1) ∨ ownedAt t x (y + 1).

(** [total[r] = base[r] * modifiers[r]] for every resource of the table. *)
Definition ratesConsistent (rr : ResourceRates num) : Prop :=
  ∀ r rate, total rr !! r = Some rate →
    rate = num_mul (to_num (base rr !! r)) (to_num (modifiers rr !! r)).

(** The number of owned tiles of a grid. *)
Definition countOwned (t : list (list (Tile num))) : nat :=
  length (filter (λ tile, isOwned tile = true) (concat t)).

(** Two tiles that the rate calculator cannot tell apart: the same tile, or
    two tiles that are not owned. *)
Definition sameForRates (a b : Tile num) : Prop :=
  a = b ∨ (isOwned a = false ∧ isOwned b = false).

(** The castle of a state: level at least 1 and at most the maximum (a
    maximum below 1 leaves the castle at level 1), stored cost the
    catalog's cost for that level, or none when the catalog has none. *)
Definition castleLevelInvariant (s : GameState num) : Prop :=
  ∃ castle lvl,
    tileAt (tiles s) GRID_CENTER_X GRID_CENTER_Y = Some castle ∧
    level castle = Some lvl ∧
    1 ≤ lvl ∧ (lvl = 1 ∨ lvl ≤ maxLevel CASTLE_UPGRADE) ∧
    match catalogCost lvl with
    | Some c => upgradeCost castle = CostOf c
    | None => upgradeCost castle = CostAbsent ∨ upgradeCost castle = CostNull
    end.

(** The centre holds an owned castle and no other cell holds a castle. *)
Definition castleInvariant (s : GameState num) : Prop :=
  ∃ castle,
    tileAt (tiles s) GRID_CENTER_X GRID_CENTER_Y = Some castle ∧
    biome castle = "castle" ∧ isOwned castle = true ∧
    ∀ x y tile, tileAt (tiles s) x y = Some tile →
      biome tile = "castle" → x = GRID_CENTER_X ∧ y = GRID_CENTER_Y.

End Store.

(** ** IEEE doubles and a small configuration to run the store on *)

(** The numbers of the JavaScript run time: binary64 with its primitive
    operations, round to nearest and ties to even. *)

Module Float64.
Import SpecFloat FloatOps.

Definition of_Z (z : Z) : float :=
  match z with
  | Z0 => 0%float
  | Zpos _ => PrimFloat.of_uint63 (Uint63.of_Z z)
  | Zneg p => PrimFloat.opp (PrimFloat.of_uint63 (Uint63.of_Z (Zpos p)))
  end.

(** The exact [p]-th power of a double, as a sign, an integer and an
    exponent of two; nothing is rounded here. *)
Definition SFpower (x : spec_float) (p : positive) : spec_float :=
  let odd := negb (Z.even (Zpos p)) in
  match x with
  | S754_zero s => S754_zero (s && odd)
  | S754_infinity s => S754_infinity (s && odd)
  | S754_nan => S754_nan
  | S754_finite s m e => S754_finite (s && odd) (Pos.pow m p) (e * Zpos p)
  end.

Definition SFunit : spec_float := S754_finite false 1 0.

(** [Math.pow] on an integer exponent.  ECMAScript fixes the result for the
    exponent 0 (it is 1, also for a [NaN] base) and for a zero, an infinite
    or a [NaN] base, and leaves the other results to the implementation,
    which approximates the exact power.  Here they are the exact power (or
    its inverse, for a negative exponent) rounded once, to the nearest
    double and to even on a tie: what a correctly rounded [pow] returns.
    An engine may differ from it in the last place; the configurations
    below lead to the exponents 0 and 1 only, where the exact power is a
    double. *)
Definition pow (b : float) (e : Z) : float :=
  match e with
  | Z0 => 1%float
  | Zpos p => SF2Prim (SFmul prec emax (SFpower (Prim2SF b) p) SFunit)
  | Zneg p => SF2Prim (SFdiv prec emax SFunit (SFpower (Prim2SF b) p))
  end.

#[global] Instance float_number : Number float := {|
  num_add := PrimFloat.add;
  num_sub := PrimFloat.sub;
  num_mul := PrimFloat.mul;
  num_div := PrimFloat.div;
  num_lt := PrimFloat.ltb;
  num_ge := λ a b, PrimFloat.leb b a;
  Math_pow := pow;
  NaN := PrimFloat.nan;
  lit := of_Z
|}.

End Float64.

Module Demo.

Definition bundle (g w s c f x : float) : gmap resource float :=
  <[gold := g]> (<[wood := w]> (<[stone := s]> (<[coal := c]>
    (<[food := f]> (<[xp := x]> ∅))))).

(** A 3 x 3 grid, two purchasable biomes, three castle levels. *)
#[global] Instance config : GameConfig float := {|
  GRID_SIZE := 3;
  GRID_HEIGHT := 3;
  BIOMES :=
    [ ("empty", mkBiome ∅);
      ("castle", mkBiome ∅);
      ("grounds", mkBiome ∅);
      ("forest", mkBiome (<[wood := 1.5%float]> ∅));
      ("hills", mkBiome (<[stone := 1.25%float]> (<[gold := 1.5%float]> ∅))) ];
  CASTLE_BASE_RATES := <[gold := 1%float]> (<[wood := 0.5%float]> ∅);
  CASTLE_UPGRADE :=
    mkCastleUpgrade 3 2%float
      [ <[gold := 60%float]> (<[wood := 10%float]> ∅);
        <[gold := 200%float]> (<[stone := 20%float]> ∅) ];
  INITIAL_RESOURCES := bundle 250 40 0 0 0 0;
  BASE_GENERATION_RATES := bundle 0.5 0 0 0 0 0;
  TILE_PURCHASE_COST := 100%float
|}.

Definition noState : GameState float :=
  mkState [] ∅ (mkRates ∅ ∅ ∅) ∅.

(** The state right after store creation. *)
Definition start : GameState float :=
  Eval vm_compute in default noState initialState.

(** ... after buying the tile left of the castle (random index 0). *)
Definition bought : GameState float :=
  Eval vm_compute in
    match buyTile 0 0 1 start with
    | Some (_, s) => s
    | None => noState
    end.

(** ... and after one castle upgrade. *)
Definition upgraded : GameState float :=
  Eval vm_compute in
    match upgradeCastle bought with
    | Some (_, s) => s
    | None => noState
    end.



Definition castleTile (lvl : Z) : Tile float :=
  mkTile "castle" true (Some lvl) CostAbsent.

(** A grid with two owned castle tiles, in different rows. *)
Definition twoCastles : list (list (Tile float)) :=
  [ [ castleTile 1; emptyTile; emptyTile ];
    [ emptyTile; castleTile 1; emptyTile ];
    [ emptyTile; emptyTile; emptyTile ] ].

(** Two owned castle tiles in one row; the second one is at level 2. *)
Definition rowCastles : list (list (Tile float)) :=
  [ [ castleTile 1; castleTile 2; emptyTile ];
    [ emptyTile; emptyTile; emptyTile ];
    [ emptyTile; emptyTile; emptyTile ] ].

(** The same grid with the lower castle removed. *)
Definition oneCastle : list (list (Tile float)) :=
  [ [ castleTile 1; emptyTile; emptyTile ];
    [ emptyTile; emptyTile; emptyTile ];
    [ emptyTile; emptyTile; emptyTile ] ].

(** The configuration with no row at all. *)
Definition flatConfig : GameConfig float := {|
  GRID_SIZE := 3;
  GRID_HEIGHT := 0;
  BIOMES := [];
  CASTLE_BASE_RATES := ∅;
  CASTLE_UPGRADE := mkCastleUpgrade 3 2%float [];
  INITIAL_RESOURCES := ∅;
  BASE_GENERATION_RATES := ∅;
  TILE_PURCHASE_COST := 100%float
|}.

(** A configuration with one row of [2^32] columns: one more than an array
    can hold. *)
Definition wideConfig : GameConfig float := {|
  GRID_SIZE := 4294967296;
  GRID_HEIGHT := 1;
  BIOMES := [];
  CASTLE_BASE_RATES := ∅;
  CASTLE_UPGRADE := mkCastleUpgrade 3 2%float [];
  INITIAL_RESOURCES := ∅;
  BASE_GENERATION_RATES := ∅;
  TILE_PURCHASE_COST := 100%float
|}.

(** The fresh state with no holding at all. *)
Definition penniless : GameState float :=
  mkState (tiles start) ∅ (resourceRates start) (resourceModifiers start).

(** A state whose grid has no castle. *)
Definition noCastle : GameState float :=
  mkState
    [ [ emptyTile; emptyTile; emptyTile ];
      [ emptyTile; emptyTile; emptyTile ];
      [ emptyTile; emptyTile; emptyTile ] ]
    (resources start) (resourceRates start) (resourceModifiers start).

(** A state whose castle is at the last level: its stored cost is null. *)
Definition maxed : GameState float :=
  mkState
    [ [ emptyTile; emptyTile; emptyTile ];
      [ emptyTile; mkTile "castle" true (Some 3) CostNull; emptyTile ];
      [ emptyTile; emptyTile; emptyTile ] ]
    (bundle 1000 1000 1000 0 0 0) (resourceRates start)
    (resourceModifiers start).

(** [oneCastle] with another biome on an unowned tile. *)
Definition oneCastleForest : list (list (Tile float)) :=
  [ [ castleTile 1; emptyTile; emptyTile ];
    [ emptyTile; emptyTile; emptyTile ];
    [ emptyTile; emptyTile; mkTile "forest" false (Some 4) CostNull ] ].

End Demo.

(** * Properties *)

(** ** Objects and arrays *)

(** What a [forEach] over the entries of [src] leaves in [acc]. *)
Lemma forEach_entry_lookup {num V : Type}
    (f : resource → V → option num → num)
    (src : gmap resource V) (acc : gmap resource num) (r : resource) :
  forEach_entry f src acc !! r =
    match src !! r with
    | Some v => Some (f r v (acc !! r))
    | None => acc !! r
    end.
Proof.
  unfold forEach_entry.
  apply (map_fold_weak_ind (λ res m,
    res !! r = match m !! r with
               | Some v => Some (f r v (acc !! r))
               | None => acc !! r
               end)); clear src.
  - by rewrite lookup_empty.
  - intros k v m res Hk IH. rewrite !lookup_insert.
    destruct (decide (k = r)) as [->|Hne]; [|done].
    by rewrite IH, Hk.
Qed.

Lemma index_Some {A : Type} (a : list A) (i : Z) (v : A) :
  index a i = Some v ↔ 0 ≤ i ∧ a !! Z.to_nat i = Some v.
Proof.
  unfold index. destruct (Z.ltb_spec i 0) as [Hneg|Hpos].
  - split; [done|]. intros [? _]. lia.
  - split; [by intros ->|]. by intros [_ ->].
Qed.

Lemma tileAt_Some {num : Type} (t : list (list (Tile num))) x y tile :
  tileAt t x y = Some tile ↔
  0 ≤ x ∧ 0 ≤ y ∧
  ∃ row, t !! Z.to_nat y = Some row ∧ row !! Z.to_nat x = Some tile.
Proof.
  unfold tileAt. split.
  - intros H. apply bind_Some in H as (row & Hrow & Hx).
    apply index_Some in Hrow as [? ?]. apply index_Some in Hx as [? ?].
    eauto 6.
  - intros (Hx & Hy & row & Hrow & Htile). apply bind_Some. exists row.
    split; apply index_Some; auto.
Qed.

(** Reading back the cell that was written. *)
Lemma tileAt_setTile_eq {num : Type} (t : list (list (Tile num))) x y old v :
  tileAt t x y = Some old → tileAt (setTile t x y v) x y = Some v.
Proof.
  intros (Hx & Hy & row & Hrow & Hold)%tileAt_Some.
  apply tileAt_Some. do 2 (split; [done|]).
  exists (<[Z.to_nat x := v]> row). split.
  - unfold setTile. by rewrite list_lookup_alter_eq, Hrow.
  - apply list_lookup_insert_eq. by eapply lookup_lt_Some.
Qed.

(** Every other cell is as before. *)
Lemma tileAt_setTile_ne {num : Type} (t : list (list (Tile num))) x y x' y' v :
  0 ≤ x → 0 ≤ y → (x', y') ≠ (x, y) →
  tileAt (setTile t x y v) x' y' = tileAt t x' y'.
Proof.
  intros Hx Hy Hne. unfold tileAt, setTile, index.
  destruct (Z.ltb_spec y' 0) as [|Hy']; [done|].
  destruct (decide (Z.to_nat y = Z.to_nat y')) as [Heq|Hny].
  - assert (y' = y) as -> by lia.
    rewrite list_lookup_alter_eq. destruct (t !! Z.to_nat y) as [row|]; [|done].
    simpl. destruct (Z.ltb_spec x' 0) as [|Hx']; [done|].
    apply list_lookup_insert_ne. intros Hxx.
    apply Hne. f_equal. lia.
  - by rewrite list_lookup_alter_ne.
Qed.

(** ** The rate calculator *)

Section RateFacts.
Context {num : Type} `{!Number num} `{!GameConfig num}.
Implicit Types (t : list (list (Tile num))) (b m : gmap resource num).

Lemma cellOk_Some t x y :
  cellOk t x y = true →
  ∃ tile, tileAt t x y = Some tile ∧
    (isOwned tile = true → is_Some (BIOMES_get (biome tile))).
Proof.
  unfold cellOk. destruct (tileAt t x y) as [tile|]; [|done].
  intros H. exists tile. split; [done|]. intros Ho. rewrite Ho in H.
  simpl in H. by destruct (BIOMES_get (biome tile)).
Qed.

Lemma gridOk_cell t x y :
  gridOk t = true → inBounds x y → cellOk t x y = true.
Proof.
  unfold gridOk, inBounds. intros H [Hx Hy].
  rewrite forallb_forall in H.
  specialize (H y). rewrite forallb_forall in H.
  apply H; apply list_elem_of_In, elem_of_seqZ; lia.
Qed.

Lemma gridOk_intro t :
  (∀ x y, inBounds x y → cellOk t x y = true) → gridOk t = true.
Proof.
  intros H. unfold gridOk. apply forallb_forall. intros y Hy.
  apply forallb_forall. intros x Hx.
  apply list_elem_of_In, elem_of_seqZ in Hx, Hy. apply H. split; lia.
Qed.

Lemma gridOk_tileAt t x y :
  gridOk t = true → inBounds x y → is_Some (tileAt t x y).
Proof.
  intros Hg Hin. destruct (cellOk_Some t x y) as (tile & -> & _); [|done].
  by apply gridOk_cell.
Qed.

(** Writing a tile of a known biome keeps the grid fit for the calculator. *)
Lemma gridOk_setTile t x y old v :
  gridOk t = true → tileAt t x y = Some old →
  (isOwned v = true → is_Some (BIOMES_get (biome v))) →
  gridOk (setTile t x y v) = true.
Proof.
  intros Hg Hold Hv. apply gridOk_intro. intros x' y' Hin.
  pose proof (gridOk_cell t x' y' Hg Hin) as Hc.
  pose proof Hold as (Hx & Hy & _)%tileAt_Some.
  unfold cellOk in *. destruct (decide ((x', y') = (x, y))) as [[= -> ->]|Hne].
  - rewrite (tileAt_setTile_eq t x y old v Hold).
    destruct (isOwned v); [|done]. simpl.
    by destruct (Hv eq_refl) as [? ->].
  - by rewrite tileAt_setTile_ne.
Qed.

Lemma castleRow_total t y xs b :
  (∀ x, x ∈ xs → is_Some (tileAt t x y)) → is_Some (castleRow t y xs b).
Proof.
  induction xs as [|x xs IH]; intros H; simpl; [by eexists|].
  destruct (H x) as [tile ->]; [by left|]. simpl.
  destruct (isOwned tile && String.eqb (biome tile) "castle"); [by eexists|].
  apply IH. intros x' Hx'. apply H. by right.
Qed.

Lemma castleScan_total t ys b :
  (∀ x y, y ∈ ys → x ∈ seqZ 0 GRID_SIZE → is_Some (tileAt t x y)) →
  is_Some (castleScan t ys b).
Proof.
  revert b. induction ys as [|y ys IH]; intros b H; simpl; [by eexists|].
  destruct (castleRow_total t y (seqZ 0 GRID_SIZE) b) as [b' ->].
  { intros x Hx. apply H; [by left|done]. }
  simpl. apply IH. intros x y' Hy' Hx. apply H; [by right|done].
Qed.

Lemma modifierRow_total t y xs m :
  (∀ x, x ∈ xs → cellOk t x y = true) → is_Some (modifierRow t y xs m).
Proof.
  revert m. induction xs as [|x xs IH]; intros m H; simpl; [by eexists|].
  destruct (cellOk_Some t x y) as (tile & -> & Hb); [apply H; by left|].
  simpl. unfold applyModifiers.
  destruct (isOwned tile).
  - destruct (Hb eq_refl) as [info ->]. simpl.
    apply IH. intros x' Hx'. apply H. by right.
  - simpl. apply IH. intros x' Hx'. apply H. by right.
Qed.

Lemma modifierScan_total t ys m :
  (∀ x y, y ∈ ys → x ∈ seqZ 0 GRID_SIZE → cellOk t x y = true) →
  is_Some (modifierScan t ys m).
Proof.
  revert m. induction ys as [|y ys IH]; intros m H; simpl; [by eexists|].
  destruct (modifierRow_total t y (seqZ 0 GRID_SIZE) m) as [m' ->].
  { intros x Hx. apply H; [by left|done]. }
  simpl. apply IH. intros x y' Hy' Hx. apply H; [by right|done].
Qed.

(** The calculator returns on every grid whose cells it can process. *)
Lemma calculateResourceRates_total t :
  gridOk t = true → is_Some (calculateResourceRates t).
Proof.
  intros Hg. unfold calculateResourceRates.
  assert (∀ x y, y ∈ seqZ 0 GRID_HEIGHT → x ∈ seqZ 0 GRID_SIZE →
            cellOk t x y = true) as Hc.
  { intros x y Hy%elem_of_seqZ Hx%elem_of_seqZ.
    apply gridOk_cell; [done|]. split; lia. }
  destruct (castleScan_total t (seqZ 0 GRID_HEIGHT) BASE_GENERATION_RATES)
    as [b ->].
  { intros x y Hy Hx. destruct (cellOk_Some t x y) as (tile & -> & _); eauto. }
  destruct (modifierScan_total t (seqZ 0 GRID_HEIGHT) initialModifiers)
    as [m ->]; [done|].
  by eexists.
Qed.

(** The [total] it returns: the product, on the keys of
    [BASE_GENERATION_RATES]. *)
Lemma calculateResourceRates_total_lookup t rr r :
  calculateResourceRates t = Some rr →
  total rr !! r =
    match BASE_GENERATION_RATES !! r with
    | Some _ =>
        Some (num_mul (to_num (base rr !! r)) (to_num (modifiers rr !! r)))
    | None => None
    end.
Proof.
  unfold calculateResourceRates. intros H.
  apply bind_Some in H as (b & _ & H). apply bind_Some in H as (m & _ & H).
  injection H as <-. simpl. rewrite forEach_entry_lookup.
  by destruct (BASE_GENERATION_RATES !! r).
Qed.

Lemma calculateResourceRates_consistent t rr :
  calculateResourceRates t = Some rr → ratesConsistent rr.
Proof.
  intros H r rate Hr.
  rewrite (calculateResourceRates_total_lookup t rr r H) in Hr.
  destruct (BASE_GENERATION_RATES !! r); congruence.
Qed.

End RateFacts.

(** ** Adjacency and the castle search *)

Section ScanFacts.
Context {num : Type} `{!Number num} `{!GameConfig num}.
Implicit Types (t : list (list (Tile num))).

Lemma inBounds_test x y :
  (0 <=? x) && (x <? GRID_SIZE) && (0 <=? y) && (y <? GRID_HEIGHT) = true
  ↔ inBounds x y.
Proof.
  unfold inBounds. rewrite !andb_true_iff, !Z.leb_le, !Z.ltb_lt. tauto.
Qed.

Lemma someDirection_spec t x y ds hit :
  someDirection t x y ds = Some hit →
  (hit = true ↔ ∃ dx dy, (dx, dy) ∈ ds ∧ ownedAt t (x + dx) (y + dy)).
Proof.
  revert hit. induction ds as [|[dx dy] ds IH]; intros hit; simpl.
  - intros [= <-]. split; [done|]. intros (? & ? & []%elem_of_nil & _).
  - intros H. apply bind_Some in H as (h & Hh & H).
    destruct h.
    + injection H as <-. split; [intros _|done]. exists dx, dy.
      split; [by left|].
      destruct ((0 <=? x + dx) && (x + dx <? GRID_SIZE) &&
                (0 <=? y + dy) && (y + dy <? GRID_HEIGHT)) eqn:Hin; [|done].
      apply inBounds_test in Hin. split; [done|].
      apply fmap_Some in Hh as (tile & Htile & Ho). eauto.
    + rewrite (IH hit H). split.
      * intros (dx' & dy' & Hd & Ho). exists dx', dy'. split; [by right|done].
      * intros (dx' & dy' & Hd & Ho). exists dx', dy'. split; [|done].
        apply elem_of_cons in Hd as [[= -> ->]|Hd]; [|done].
        exfalso. destruct Ho as (Hin & tile & Htile & Ho).
        apply inBounds_test in Hin. rewrite Hin, Htile in Hh. simpl in Hh.
        congruence.
Qed.

Lemma someDirection_total t x y ds :
  gridOk t = true → is_Some (someDirection t x y ds).
Proof.
  intros Hg. induction ds as [|[dx dy] ds IH]; simpl; [by eexists|].
  destruct ((0 <=? x + dx) && (x + dx <? GRID_SIZE) &&
            (0 <=? y + dy) && (y + dy <? GRID_HEIGHT)) eqn:Hin.
  - apply inBounds_test in Hin.
    destruct (gridOk_tileAt t _ _ Hg Hin) as [tile ->]. simpl.
    by destruct (isOwned tile); [eexists|].
  - done.
Qed.

(** The code's adjacency test is the four-neighbour predicate. *)
Lemma isAdjacentToOwned_spec t x y hit :
  isAdjacentToOwned t x y = Some hit → (hit = true ↔ ownedNeighbour t x y).
Proof.
  intros H. rewrite (someDirection_spec t x y directions hit H).
  unfold ownedNeighbour, directions.
  change (x - 1) with (x + -1). change (y - 1) with (y + -1).
  split.
  - intros (dx & dy & Hd & Ho).
    repeat (apply elem_of_cons in Hd as [[= -> ->]|Hd]);
      [| | | |by apply elem_of_nil in Hd];
      rewrite ?Z.add_0_r in Ho; auto.
  - intros [Ho|[Ho|[Ho|Ho]]];
      [exists (-1), 0|exists 1, 0|exists 0, (-1)|exists 0, 1];
      rewrite ?Z.add_0_r; (split; [set_solver|done]).
Qed.

Lemma isAdjacentToOwned_total t x y :
  gridOk t = true → is_Some (isAdjacentToOwned t x y).
Proof. apply someDirection_total. Qed.

Lemma findCastleRow_sound t y xs tile x :
  findCastleRow t y xs = Some (Some (tile, x)) →
  tileAt t x y = Some tile ∧ biome tile = "castle" ∧ x ∈ xs.
Proof.
  induction xs as [|x0 xs IH]; simpl; [done|].
  intros H. apply bind_Some in H as (tile0 & Htile0 & H).
  destruct (String.eqb (biome tile0) "castle") eqn:Hb.
  - injection H as <- <-. apply String.eqb_eq in Hb.
    split; [done|]. split; [done|]. by left.
  - destruct (IH H) as (? & ? & ?). split; [done|]. split; [done|]. by right.
Qed.

Lemma findCastleRow_None t y xs x tile :
  findCastleRow t y xs = Some None → x ∈ xs →
  tileAt t x y = Some tile → biome tile ≠ "castle".
Proof.
  induction xs as [|x0 xs IH]; simpl; [by intros _ ?%elem_of_nil|].
  intros H Hx Htile. apply bind_Some in H as (tile0 & Htile0 & H).
  destruct (String.eqb (biome tile0) "castle") eqn:Hb; [done|].
  apply elem_of_cons in Hx as [->|Hx]; [|by apply IH].
  rewrite Htile in Htile0. injection Htile0 as ->.
  by apply String.eqb_neq in Hb.
Qed.

Lemma findCastleRow_total t y xs :
  (∀ x, x ∈ xs → is_Some (tileAt t x y)) → is_Some (findCastleRow t y xs).
Proof.
  induction xs as [|x xs IH]; intros H; simpl; [by eexists|].
  destruct (H x) as [tile ->]; [by left|]. simpl.
  destruct (String.eqb (biome tile) "castle"); [by eexists|].
  apply IH. intros x' Hx'. apply H. by right.
Qed.

Lemma findCastle_sound t ys tile x y :
  findCastle t ys = Some (Some (tile, x, y)) →
  tileAt t x y = Some tile ∧ biome tile = "castle" ∧
  x ∈ seqZ 0 GRID_SIZE ∧ y ∈ ys.
Proof.
  induction ys as [|y0 ys IH]; simpl; [done|].
  intros H. apply bind_Some in H as (found & Hrow & H).
  destruct found as [[tile0 x0]|].
  - injection H as <- <- <-.
    destruct (findCastleRow_sound _ _ _ _ _ Hrow) as (? & ? & ?).
    repeat split; try done. by left.
  - destruct (IH H) as (? & ? & ? & ?). repeat split; try done. by right.
Qed.

Lemma findCastle_None t ys x y tile :
  findCastle t ys = Some None → y ∈ ys → x ∈ seqZ 0 GRID_SIZE →
  tileAt t x y = Some tile → biome tile ≠ "castle".
Proof.
  induction ys as [|y0 ys IH]; simpl; [by intros _ ?%elem_of_nil|].
  intros H Hy Hx Htile. apply bind_Some in H as (found & Hrow & H).
  destruct found as [[tile0 x0]|]; [done|].
  apply elem_of_cons in Hy as [->|Hy]; [|by apply IH].
  by eapply findCastleRow_None.
Qed.

Lemma findCastle_total t ys :
  (∀ x y, y ∈ ys → x ∈ seqZ 0 GRID_SIZE → is_Some (tileAt t x y)) →
  is_Some (findCastle t ys).
Proof.
  induction ys as [|y ys IH]; intros H; simpl; [by eexists|].
  destruct (findCastleRow_total t y (seqZ 0 GRID_SIZE)) as [found ->].
  { intros x Hx. apply H; [by left|done]. }
  simpl. destruct found as [[tile x]|]; [by eexists|].
  apply IH. intros x y' Hy' Hx. apply H; [by right|done].
Qed.

(** With a single castle inside the bounds, the search returns it. *)
Lemma findCastle_unique t castle cx cy :
  gridOk t = true → inBounds cx cy →
  tileAt t cx cy = Some castle → biome castle = "castle" →
  (∀ x y tile, inBounds x y → tileAt t x y = Some tile →
     biome tile = "castle" → x = cx ∧ y = cy) →
  findCastle t (seqZ 0 GRID_HEIGHT) = Some (Some (castle, cx, cy)).
Proof.
  intros Hg [Hcx Hcy] Hc Hb Huniq.
  destruct (findCastle_total t (seqZ 0 GRID_HEIGHT)) as [found Hf].
  { intros x y Hy%elem_of_seqZ Hx%elem_of_seqZ.
    apply gridOk_tileAt; [done|]. split; lia. }
  rewrite Hf. destruct found as [[[tile x] y]|].
  - destruct (findCastle_sound _ _ _ _ _ Hf)
      as (Htile & Hbt & Hx%elem_of_seqZ & Hy%elem_of_seqZ).
    destruct (Huniq x y tile) as [-> ->]; [split; lia|done|done|].
    rewrite Hc in Htile. by injection Htile as ->.
  - exfalso. eapply (findCastle_None t _ cx cy castle Hf); try done;
      apply elem_of_seqZ; lia.
Qed.

End ScanFacts.

(** ** What a store call did, read off its answer *)

Section Inversion.
Context {num : Type} `{!Number num} `{!GameConfig num}.

Lemma buyTile_false rnd x y s s' :
  buyTile rnd x y s = Some (false, s') → s' = s.
Proof.
  unfold buyTile. intros H.
  apply bind_Some in H as (tile & _ & H).
  destruct (isOwned tile); [by injection H|].
  apply bind_Some in H as (adjacent & _ & H).
  destruct (negb adjacent); [by injection H|].
  destruct (num_lt _ _); [by injection H|].
  apply bind_Some in H as (newRates & _ & H). done.
Qed.

Lemma buyTile_true rnd x y s s' :
  buyTile rnd x y s = Some (true, s') →
  ∃ tile randomBiome newRates,
    tileAt (tiles s) x y = Some tile ∧ isOwned tile = false ∧
    isAdjacentToOwned (tiles s) x y = Some true ∧
    num_lt (to_num (resources s !! gold)) TILE_PURCHASE_COST = false ∧
    randomBiome = pickBiome rnd ∧
    calculateResourceRates
      (setTile (tiles s) x y (mkTile randomBiome true None CostAbsent))
      = Some newRates ∧
    s' = boughtState s x y randomBiome newRates.
Proof.
  unfold buyTile. intros H.
  apply bind_Some in H as (tile & Htile & H).
  destruct (isOwned tile) eqn:Ho; [done|].
  apply bind_Some in H as (adjacent & Hadj & H).
  destruct adjacent; [|done]. simpl in H.
  destruct (num_lt _ _) eqn:Hlt; [done|].
  apply bind_Some in H as (newRates & Hrates & H).
  injection H as <-. exists tile, (pickBiome rnd), newRates. eauto 10.
Qed.

Lemma upgradeCastle_false s s' :
  upgradeCastle s = Some (false, s') → s' = s.
Proof.
  unfold upgradeCastle. intros H.
  apply bind_Some in H as (found & _ & H).
  destruct found as [[[castle cx] cy]|]; [|by injection H].
  destruct (upgradeCost castle); try by injection H.
  destruct (level castle) as [lvl|]; [|by injection H].
  destruct (lvl =? 0); [by injection H|].
  destruct (maxLevel CASTLE_UPGRADE <=? lvl); [by injection H|].
  destruct (negb _); [by injection H|].
  apply bind_Some in H as (newRates & _ & H). done.
Qed.

Lemma upgradeCastle_true s s' :
  upgradeCastle s = Some (true, s') →
  ∃ castle cx cy lvl cost newRates,
    findCastle (tiles s) (seqZ 0 GRID_HEIGHT) = Some (Some (castle, cx, cy)) ∧
    upgradeCost castle = CostOf cost ∧ level castle = Some lvl ∧
    lvl ≠ 0 ∧ lvl < maxLevel CASTLE_UPGRADE ∧
    canAffordCost (resources s) (inr cost) = true ∧
    calculateResourceRates
      (setTile (tiles s) cx cy
         (mkTile (biome castle) (isOwned castle) (Some (lvl + 1))
            (nextUpgradeCost lvl))) = Some newRates ∧
    s' = upgradedState s castle cx cy lvl cost newRates.
Proof.
  unfold upgradeCastle. intros H.
  apply bind_Some in H as (found & Hfound & H).
  destruct found as [[[castle cx] cy]|]; [|done].
  destruct (upgradeCost castle) as [| |cost] eqn:Hcost; try done.
  destruct (level castle) as [lvl|] eqn:Hlvl; [|done].
  destruct (Z.eqb_spec lvl 0) as [|Hnz]; [done|].
  destruct (Z.leb_spec (maxLevel CASTLE_UPGRADE) lvl) as [|Hmax]; [done|].
  destruct (canAffordCost _ _) eqn:Hafford; [|done]. simpl in H.
  apply bind_Some in H as (newRates & Hrates & H).
  injection H as <-. exists castle, cx, cy, lvl, cost, newRates. eauto 10.
Qed.

End Inversion.

(** ** tick *)

Section TickFacts.
Context {num : Type} `{!Number num} `{!GameConfig num}.

Lemma tick_resources_lookup deltaTime (s : GameState num) r :
  resources (tick deltaTime s) !! r =
    match total (resourceRates s) !! r with
    | Some rate =>
        Some (num_add (to_num (resources s !! r))
                (num_mul rate (num_div deltaTime (lit 1000))))
    | None => resources s !! r
    end.
Proof. unfold tick. simpl. by rewrite forEach_entry_lookup. Qed.

(** C9: [tick] writes the [resources] field only: the grid, the stored
    rates and the stored modifiers are the ones it found, for every
    [deltaTime]. *)
Theorem tick_frame deltaTime (s : GameState num) :
  tiles (tick deltaTime s) = tiles s ∧
  resourceRates (tick deltaTime s) = resourceRates s ∧
  resourceModifiers (tick deltaTime s) = resourceModifiers s.
Proof. by unfold tick. Qed.

End TickFacts.

(** ** Doubles: a product with one, a sum with a product with zero *)

Module Float64Facts.
Import SpecFloat FloatOps FloatAxioms.


Lemma Prim2SF_zero : Prim2SF 0%float = S754_zero false.
Proof. vm_compute. reflexivity. Qed.






(** The other doubles are the infinities and [NaN]. *)
Lemma is_finite_false (x : float) :
  is_finite x = false →
  (∃ s, Prim2SF x = S754_infinity s) ∨ Prim2SF x = S754_nan.
Proof.
  unfold is_finite, is_nan, is_infinity.
  rewrite !eqb_spec, abs_spec.
  destruct (Prim2SF x) as [s|s| |s m e]; intros H.
  - exfalso. revert H. by destruct s; vm_compute.
  - left. by exists s.
  - by right.
  - exfalso. revert H.
    destruct s; cbn; by rewrite Z.compare_refl, Pos.compare_cont_refl.
Qed.


(** An infinity or [NaN] times zero is [NaN]. *)
Lemma mul_zero_nan (x : float) :
  is_finite x = false → (x * 0)%float = nan.
Proof.
  intros H. apply Prim2SF_inj. rewrite mul_spec, Prim2SF_zero.
  destruct (is_finite_false x H) as [[s ->]| ->]; by vm_compute.
Qed.

(** [NaN] is absorbing for the product, on either side, and for the sum. *)
Lemma nan_mul (x : float) : (nan * x)%float = nan.
Proof.
  apply Prim2SF_inj. rewrite mul_spec.
  change (Prim2SF nan) with S754_nan. reflexivity.
Qed.

Lemma mul_nan (x : float) : (x * nan)%float = nan.
Proof.
  apply Prim2SF_inj. rewrite mul_spec.
  change (Prim2SF nan) with S754_nan.
  by destruct (Prim2SF x) as [s|s| |s m e].
Qed.

Lemma add_nan (x : float) : (x + nan)%float = nan.
Proof.
  apply Prim2SF_inj. rewrite add_spec.
  change (Prim2SF nan) with S754_nan.
  by destruct (Prim2SF x) as [s|s| |s m e].
Qed.



(** [Math.pow] on a few arguments: [1.2 ^ 3] is [1.7279999999999998] and
    [1.1 ^ 2] is [1.2100000000000002] (the cube and the square rounded
    once), powers of two are exact, and the exponent 0 gives 1 also for
    [NaN]. *)
Lemma pow_values :
  Float64.pow 0x1.3333333333333p+0 3 = 0x1.ba5e353f7ced8p+0%float ∧
  Float64.pow 0x1.199999999999ap+0 2 = 0x1.35c28f5c28f5dp+0%float ∧
  Float64.pow 2 10 = 1024%float ∧
  Float64.pow 2 1 = 2%float ∧
  Float64.pow 2 (-1) = 0.5%float ∧
  Float64.pow nan 0 = 1%float ∧
  Float64.pow 0 (-1) = infinity.
Proof. repeat split; vm_compute; reflexivity. Qed.



(** No time, and a rate that is an infinity or [NaN]: the sum is [NaN]. *)
Lemma rate_no_time_nan (held rate : float) :
  is_finite rate = false →
  num_add held (num_mul rate (num_div (lit 0) (lit 1000))) = nan.
Proof.
  intros Hr.
  change (num_add held (num_mul rate (num_div (lit 0) (lit 1000))))
    with (held + rate * 0)%float.
  rewrite (mul_zero_nan rate Hr). apply add_nan.
Qed.

End Float64Facts.

(** ** The accrual of [tick], in doubles *)


(** ** The stored rates *)

Section RatesInvariant.
Context {num : Type} `{!Number num} `{!GameConfig num}.

Lemma step_rates (s s' : GameState num) :
  step s s' →
  resourceRates s' = resourceRates s ∨
  calculateResourceRates (tiles s') = Some (resourceRates s').
Proof.
  intros [rnd x y s0 ok s0' H|s0 ok s0' H|deltaTime s0].
  - destruct ok.
    + apply buyTile_true in H
        as (tile & randomBiome & newRates & _ & _ & _ & _ & _ & Hr & ->).
      by right.
    + apply buyTile_false in H as ->. by left.
  - destruct ok.
    + apply upgradeCastle_true in H
        as (castle & cx & cy & lvl & cost & newRates & _ & _ & _ & _ & _ & _
            & Hr & ->).
      by right.
    + apply upgradeCastle_false in H as ->. by left.
  - by left.
Qed.

(** C3: on every grid it can process the rate calculator returns
    [{base, modifiers, total}] with [total[r] = base[r] * modifiers[r]] for
    every resource [r] of the rate table (the keys of
    [BASE_GENERATION_RATES]; every resource kind when that table lists them
    all), and the rates stored after initialization and after every
    [buyTile], [upgradeCastle] and [tick] satisfy the same identity. *)
Theorem rates_identity :
  (∀ t, gridOk t = true →
     ∃ rr, calculateResourceRates t = Some rr ∧ ratesConsistent rr) ∧
  (∀ t rr r, calculateResourceRates t = Some rr →
     total rr !! r =
       match BASE_GENERATION_RATES !! r with
       | Some _ =>
           Some (num_mul (to_num (base rr !! r)) (to_num (modifiers rr !! r)))
       | None => None
       end) ∧
  ((∀ r, is_Some (BASE_GENERATION_RATES !! r)) →
   ∀ t rr r, calculateResourceRates t = Some rr →
     total rr !! r =
       Some (num_mul (to_num (base rr !! r)) (to_num (modifiers rr !! r)))) ∧
  (∀ s, initialState = Some s → ratesConsistent (resourceRates s)) ∧
  (∀ s s', step s s' → ratesConsistent (resourceRates s) →
     ratesConsistent (resourceRates s')) ∧
  (∀ s, reachable s → ratesConsistent (resourceRates s)).
Proof.
  assert (∀ s, initialState = Some s → ratesConsistent (resourceRates s))
    as Hinit.
  { intros s H. unfold initialState in H.
    apply bind_Some in H as (grid & _ & H).
    apply bind_Some in H as (rr & Hrr & H). injection H as <-. simpl.
    by eapply calculateResourceRates_consistent. }
  assert (∀ s s', step s s' → ratesConsistent (resourceRates s) →
            ratesConsistent (resourceRates s')) as Hstep.
  { intros s s' Hs Hc. destruct (step_rates s s' Hs) as [->|Hr]; [done|].
    by eapply calculateResourceRates_consistent. }
  repeat split.
  - intros t Hg. destruct (calculateResourceRates_total t Hg) as [rr Hrr].
    exists rr. split; [done|]. by eapply calculateResourceRates_consistent.
  - intros t rr r. apply calculateResourceRates_total_lookup.
  - intros Hkinds t rr r Hrr.
    rewrite (calculateResourceRates_total_lookup t rr r Hrr).
    by destruct (Hkinds r) as [? ->].
  - exact Hinit.
  - exact Hstep.
  - induction 1 as [s Hs|s s' _ IH Hs]; [by apply Hinit|].
    by apply (Hstep s s').
Qed.

End RatesInvariant.

(** ** buyTile *)

Section BuyFacts.
Context {num : Type} `{!Number num} `{!GameConfig num}.

Lemma availableBiomes_elem (name : string) :
  name ∈ availableBiomes → name ∈ BIOMES.*1 ∧ name ∉ excludedBiomes.
Proof.
  unfold availableBiomes. intros H.
  apply list_elem_of_fmap in H as (e & -> & He).
  apply list_elem_of_filter in He as [Hex He]. split; [|done].
  apply list_elem_of_fmap. by exists e.
Qed.

(** The biome of a purchase is never the castle. *)
Lemma pickBiome_not_castle (rnd : nat) : pickBiome rnd ≠ "castle".
Proof.
  unfold pickBiome.
  destruct (availableBiomes !! rnd) as [name|] eqn:Hrnd; [|done].
  apply list_elem_of_lookup_2, availableBiomes_elem in Hrnd as [_ Hex].
  simpl. intros ->. apply Hex. unfold excludedBiomes. by right; left.
Qed.

Lemma BIOMES_get_elem (name : string) :
  name ∈ BIOMES.*1 → is_Some (BIOMES_get name).
Proof.
  intros H. unfold BIOMES_get.
  destruct (list_to_map BIOMES !! name) eqn:Hget; [by eexists|].
  by apply not_elem_of_list_to_map in Hget.
Qed.

(** C1: for an in-bounds [(x, y)] of a grid the calculator can process, a
    random index inside the list of available biomes and gold that is
    comparable with the purchase cost, [buyTile(x, y)] returns, and it
    returns true exactly when the target is not owned, one of its four
    in-bounds neighbours is owned and gold >= the purchase cost; when it
    returns true, gold is the old gold minus the purchase cost and the
    target is owned with a biome of the catalog that is none of empty,
    castle and grounds. *)
Theorem buyTile_succeeds_iff (rnd : nat) (x y : Z) (s : GameState num) :
  inBounds x y →
  gridOk (tiles s) = true →
  (rnd < length availableBiomes)%nat →
  num_lt (to_num (resources s !! gold)) TILE_PURCHASE_COST =
    negb (num_ge (to_num (resources s !! gold)) TILE_PURCHASE_COST) →
  ∃ ok s' tile,
    tileAt (tiles s) x y = Some tile ∧
    buyTile rnd x y s = Some (ok, s') ∧
    (ok = true ↔
       isOwned tile = false ∧ ownedNeighbour (tiles s) x y ∧
       num_ge (to_num (resources s !! gold)) TILE_PURCHASE_COST = true) ∧
    (ok = true →
       resources s' !! gold =
         Some (num_sub (to_num (resources s !! gold)) TILE_PURCHASE_COST) ∧
       ∃ tile', tileAt (tiles s') x y = Some tile' ∧
         isOwned tile' = true ∧
         biome tile' ∈ BIOMES.*1 ∧ biome tile' ∉ excludedBiomes).
Proof.
  intros Hin Hg Hrnd Hord.
  destruct (gridOk_tileAt _ _ _ Hg Hin) as [tile Htile].
  destruct (isAdjacentToOwned_total (tiles s) x y Hg) as [adjacent Hadj].
  pose proof (isAdjacentToOwned_spec _ _ _ _ Hadj) as Hspec.
  unfold buyTile. rewrite Htile. simpl.
  destruct (isOwned tile) eqn:Ho.
  { exists false, s, tile. split; [done|]. split; [done|].
    split; [|done]. split; [done|]. intros (? & _). congruence. }
  rewrite Hadj. simpl. destruct adjacent; simpl.
  2:{ exists false, s, tile. split; [done|]. split; [done|].
      split; [|done]. split; [done|].
      intros (_ & Hn & _). by apply Hspec in Hn. }
  destruct (num_lt _ _) eqn:Hlt.
  { exists false, s, tile. split; [done|]. split; [done|].
    split; [|done]. split; [done|].
    intros (_ & _ & Hge). rewrite Hge in Hord. done. }
  destruct (lookup_lt_is_Some_2 _ _ Hrnd) as [randomBiome Hb].
  unfold pickBiome. rewrite Hb. simpl.
  destruct (availableBiomes_elem randomBiome) as [Hcat Hex].
  { by eapply list_elem_of_lookup_2. }
  set (newTile := mkTile randomBiome true None CostAbsent).
  destruct (calculateResourceRates_total (setTile (tiles s) x y newTile))
    as [newRates Hrates].
  { eapply gridOk_setTile; [done..|]. intros _. by apply BIOMES_get_elem. }
  rewrite Hrates. simpl. eexists true, _, tile. split; [done|].
  split; [done|]. split.
  - split; [intros _|done]. split; [done|]. split; [by apply Hspec|].
    symmetry in Hord. by apply negb_false_iff in Hord.
  - intros _. simpl. split; [by rewrite lookup_insert_eq|].
    exists newTile. split; [by eapply tileAt_setTile_eq|]. done.
Qed.

End BuyFacts.

(** ** upgradeCastle and the failing calls *)

Section UpgradeFacts.
Context {num : Type} `{!Number num} `{!GameConfig num}.

(** Affordable means: enough of every resource the cost names. *)
Lemma canAffordCost_bundle (res cost : gmap resource num) :
  canAffordCost res (inr cost) = true ↔
  ∀ r amount, cost !! r = Some amount →
    num_ge (to_num (res !! r)) amount = true.
Proof.
  simpl. rewrite forallb_forall. split.
  - intros H r amount Hr.
    apply (H (r, amount)), list_elem_of_In, elem_of_map_to_list, Hr.
  - intros H [r amount] Hin%list_elem_of_In%elem_of_map_to_list.
    by apply H.
Qed.

(** C6: a call that answers false leaves the state as it was, and the
    failing preconditions do make the call answer false: [buyTile] on a
    tile that is owned, or has no owned neighbour, or with gold below the
    purchase cost; [upgradeCastle] with the castle at the maximum level or
    with too little of a resource named in its stored upgrade cost. *)
Theorem failure_leaves_state (s : GameState num) :
  (∀ rnd x y s', buyTile rnd x y s = Some (false, s') → s' = s) ∧
  (∀ s', upgradeCastle s = Some (false, s') → s' = s) ∧
  (gridOk (tiles s) = true →
   (∀ rnd x y tile,
      tileAt (tiles s) x y = Some tile →
      isOwned tile = true ∨ ¬ ownedNeighbour (tiles s) x y ∨
      num_lt (to_num (resources s !! gold)) TILE_PURCHASE_COST = true →
      buyTile rnd x y s = Some (false, s)) ∧
   (∀ castle cx cy,
      inBounds cx cy →
      tileAt (tiles s) cx cy = Some castle → biome castle = "castle" →
      (∀ x y tile, inBounds x y → tileAt (tiles s) x y = Some tile →
         biome tile = "castle" → x = cx ∧ y = cy) →
      (∃ lvl, level castle = Some lvl ∧ maxLevel CASTLE_UPGRADE ≤ lvl) ∨
      (∃ cost r amount,
         upgradeCost castle = CostOf cost ∧ cost !! r = Some amount ∧
         num_ge (to_num (resources s !! r)) amount = false) →
      upgradeCastle s = Some (false, s))).
Proof.
  split; [intros rnd x y s'; apply buyTile_false|].
  split; [intros s'; apply upgradeCastle_false|].
  intros Hg. split.
  - intros rnd x y tile Htile Hfail. unfold buyTile. rewrite Htile. simpl.
    destruct (isOwned tile) eqn:Ho; [done|].
    destruct (isAdjacentToOwned_total (tiles s) x y Hg) as [adjacent Hadj].
    pose proof (isAdjacentToOwned_spec _ _ _ _ Hadj) as Hspec.
    rewrite Hadj. simpl. destruct adjacent; simpl; [|done].
    destruct Hfail as [?|[Hn|Hlt]]; [done| |by rewrite Hlt].
    exfalso. by apply Hn, Hspec.
  - intros castle cx cy Hin Hc Hb Huniq Hfail. unfold upgradeCastle.
    rewrite (findCastle_unique _ castle cx cy Hg Hin Hc Hb Huniq).
    cbn [mbind option_bind].
    destruct (upgradeCost castle) as [| |cost] eqn:Hcost; try done.
    destruct (level castle) as [lvl|] eqn:Hlvl; [|done].
    destruct (lvl =? 0); [done|].
    destruct (Z.leb_spec (maxLevel CASTLE_UPGRADE) lvl) as [|Hmax]; [done|].
    destruct Hfail as [(lvl' & [= <-] & ?)|(cost' & r & amount & [= <-] & Hr & Hge)];
      [lia|].
    destruct (canAffordCost (resources s) (inr cost)) eqn:Hafford; [|done].
    rewrite canAffordCost_bundle in Hafford.
    rewrite (Hafford r amount Hr) in Hge. done.
Qed.

Lemma upgradedState_resources (s : GameState num) castle cx cy lvl cost rr r :
  resources (upgradedState s castle cx cy lvl cost rr) !! r =
    match cost !! r with
    | Some amount => Some (num_sub (to_num (resources s !! r)) amount)
    | None => resources s !! r
    end.
Proof. unfold upgradedState. simpl. by rewrite forEach_entry_lookup. Qed.

(** C2: when [upgradeCastle()] returns true, the castle tile (the first one
    of the scan) has its level raised by exactly one and its upgrade cost replaced
    by the catalog's cost for the new level, or by null when the catalog
    has none (with one cost per level below the maximum: exactly when the
    new level is the maximum); every resource named in the cost stored
    before the call is lowered by that amount and every other resource is
    as before. *)
Theorem upgradeCastle_effect (s s' : GameState num) :
  upgradeCastle s = Some (true, s') →
  ∃ castle cx cy lvl cost castle',
    findCastle (tiles s) (seqZ 0 GRID_HEIGHT) = Some (Some (castle, cx, cy)) ∧
    tileAt (tiles s) cx cy = Some castle ∧ biome castle = "castle" ∧
    level castle = Some lvl ∧ upgradeCost castle = CostOf cost ∧
    tileAt (tiles s') cx cy = Some castle' ∧ biome castle' = "castle" ∧
    level castle' = Some (lvl + 1) ∧
    upgradeCost castle' =
      match catalogCost (lvl + 1) with
      | Some c => CostOf c
      | None => CostNull
      end ∧
    (Z.of_nat (length (upgradeCosts CASTLE_UPGRADE))
       = maxLevel CASTLE_UPGRADE - 1 →
     1 ≤ lvl →
     (upgradeCost castle' = CostNull ↔ lvl + 1 = maxLevel CASTLE_UPGRADE)) ∧
    (∀ r amount, cost !! r = Some amount →
       resources s' !! r =
         Some (num_sub (to_num (resources s !! r)) amount)) ∧
    (∀ r, cost !! r = None → resources s' !! r = resources s !! r).
Proof.
  intros H. apply upgradeCastle_true in H
    as (castle & cx & cy & lvl & cost & newRates & Hfound & Hcost & Hlvl
        & Hnz & Hmax & _ & _ & ->).
  destruct (findCastle_sound _ _ _ _ _ Hfound) as (Hc & Hb & _ & _).
  set (castle' := mkTile (biome castle) (isOwned castle) (Some (lvl + 1))
                    (nextUpgradeCost lvl)).
  exists castle, cx, cy, lvl, cost, castle'.
  assert (upgradeCost castle' =
            match catalogCost (lvl + 1) with
            | Some c => CostOf c
            | None => CostNull
            end) as Hnext.
  { simpl. unfold nextUpgradeCost, catalogCost.
    by replace (lvl + 1 - 1) with lvl by lia. }
  do 5 (split; [done|]).
  split; [by eapply tileAt_setTile_eq|].
  do 3 (split; [done|]).
  split; [|split].
  - intros Hlen Hpos. rewrite Hnext. unfold catalogCost.
    replace (lvl + 1 - 1) with lvl by lia. unfold index.
    destruct (Z.ltb_spec lvl 0); [lia|].
    destruct (upgradeCosts CASTLE_UPGRADE !! Z.to_nat lvl) as [c|] eqn:Hc'.
    + apply lookup_lt_Some in Hc'. split; [done|lia].
    + apply lookup_ge_None in Hc'. split; [lia|done].
  - intros r amount Hr. by rewrite upgradedState_resources, Hr.
  - intros r Hr. by rewrite upgradedState_resources, Hr.
Qed.

End UpgradeFacts.

(** ** The grid across store calls *)

Section GridFacts.
Context {num : Type} `{!Number num} `{!GameConfig num}.
Implicit Types (t : list (list (Tile num))) (s : GameState num).

(** Writing a cell keeps the number of rows and the length of each row. *)
Lemma setTile_shape t x y v :
  length <$> setTile t x y v = length <$> t.
Proof.
  unfold setTile. apply list_eq. intros i. rewrite !list_lookup_fmap.
  destruct (decide (Z.to_nat y = i)) as [<-|Hne].
  - rewrite list_lookup_alter_eq.
    destruct (t !! Z.to_nat y) as [row|]; [|done]. simpl.
    by rewrite length_insert.
  - by rewrite list_lookup_alter_ne.
Qed.

(** C10: a successful call rewrites one cell.  After [buyTile(x, y)]
    returned true every tile other than [(x, y)] is the one that was there;
    after [upgradeCastle()] returned true every tile other than the castle
    tile is; the shape of the grid is kept. *)
Theorem single_cell_change s s' :
  (∀ rnd x y, buyTile rnd x y s = Some (true, s') →
     length <$> tiles s' = length <$> tiles s ∧
     ∀ x' y', (x', y') ≠ (x, y) →
       tileAt (tiles s') x' y' = tileAt (tiles s) x' y') ∧
  (upgradeCastle s = Some (true, s') →
     ∃ castle cx cy,
       tileAt (tiles s) cx cy = Some castle ∧ biome castle = "castle" ∧
       length <$> tiles s' = length <$> tiles s ∧
       ∀ x' y', (x', y') ≠ (cx, cy) →
         tileAt (tiles s') x' y' = tileAt (tiles s) x' y').
Proof.
  split.
  - intros rnd x y H. apply buyTile_true in H
      as (tile & randomBiome & newRates & Htile & _ & _ & _ & _ & _ & ->).
    apply tileAt_Some in Htile as (Hx & Hy & _). simpl.
    split; [apply setTile_shape|].
    intros x' y' Hne. by apply tileAt_setTile_ne.
  - intros H. apply upgradeCastle_true in H
      as (castle & cx & cy & lvl & cost & newRates & Hfound & _ & _ & _ & _
          & _ & _ & ->).
    destruct (findCastle_sound _ _ _ _ _ Hfound) as (Hc & Hb & _ & _).
    exists castle, cx, cy. do 2 (split; [done|]).
    apply tileAt_Some in Hc as (Hx & Hy & _). simpl.
    split; [apply setTile_shape|].
    intros x' y' Hne. by apply tileAt_setTile_ne.
Qed.

(** C8: no store call takes a tile back.  A tile that is owned before a
    [buyTile], an [upgradeCastle] or a [tick] is owned after it. *)
Theorem ownership_never_reverts s s' x y tile :
  step s s' →
  tileAt (tiles s) x y = Some tile → isOwned tile = true →
  ∃ tile', tileAt (tiles s') x y = Some tile' ∧ isOwned tile' = true.
Proof.
  intros Hstep Htile Ho.
  destruct Hstep as [rnd px py s ok s' H|s ok s' H|deltaTime s].
  - destruct ok; [|apply buyTile_false in H as ->; eauto].
    apply buyTile_true in H
      as (old & randomBiome & newRates & Hold & _ & _ & _ & _ & _ & ->).
    simpl. destruct (decide ((x, y) = (px, py))) as [[= -> ->]|Hne].
    + eexists. split; [by eapply tileAt_setTile_eq|done].
    + apply tileAt_Some in Hold as (Hx & Hy & _).
      exists tile. by rewrite tileAt_setTile_ne.
  - destruct ok; [|apply upgradeCastle_false in H as ->; eauto].
    apply upgradeCastle_true in H
      as (castle & cx & cy & lvl & cost & newRates & Hfound & _ & _ & _ & _
          & _ & _ & ->).
    destruct (findCastle_sound _ _ _ _ _ Hfound) as (Hc & _ & _ & _).
    simpl. destruct (decide ((x, y) = (cx, cy))) as [[= -> ->]|Hne].
    + eexists. split; [by eapply tileAt_setTile_eq|]. simpl. congruence.
    + apply tileAt_Some in Hc as (Hx & Hy & _).
      exists tile. by rewrite tileAt_setTile_ne.
  - exists tile. done.
Qed.

(** [createInitialGrid] returns only for valid lengths and with a row. *)
Lemma createInitialGrid_inv grid :
  createInitialGrid = Some grid →
  0 < GRID_HEIGHT ≤ MAX_ARRAY_LENGTH ∧ 0 ≤ GRID_SIZE ≤ MAX_ARRAY_LENGTH ∧
  placeCastle emptyGrid = Some grid.
Proof.
  unfold createInitialGrid, validLength.
  destruct (Z.leb_spec 0 GRID_HEIGHT) as [Hh0|]; [|done].
  destruct (Z.leb_spec GRID_HEIGHT MAX_ARRAY_LENGTH) as [Hh1|]; [|done].
  destruct (Z.ltb_spec 0 GRID_HEIGHT) as [Hh|Hh]; simpl.
  - destruct (Z.leb_spec 0 GRID_SIZE) as [Hw0|]; [|done].
    destruct (Z.leb_spec GRID_SIZE MAX_ARRAY_LENGTH) as [Hw1|]; [|done].
    simpl. intros H. repeat split; done.
  - assert (GRID_HEIGHT = 0) as Heq by lia.
    unfold placeCastle, emptyGrid, GRID_CENTER_Y. rewrite Heq. done.
Qed.

(** For valid lengths and with a row, [createInitialGrid] gets past the
    arrays. *)
Lemma createInitialGrid_run :
  0 < GRID_HEIGHT ≤ MAX_ARRAY_LENGTH → 0 ≤ GRID_SIZE ≤ MAX_ARRAY_LENGTH →
  createInitialGrid = placeCastle emptyGrid.
Proof.
  intros Hh Hw. unfold createInitialGrid, validLength.
  destruct (Z.leb_spec 0 GRID_HEIGHT); [|lia].
  destruct (Z.leb_spec GRID_HEIGHT MAX_ARRAY_LENGTH); [|lia].
  destruct (Z.leb_spec 0 GRID_SIZE); [|lia].
  destruct (Z.leb_spec GRID_SIZE MAX_ARRAY_LENGTH); [|lia].
  simpl. by rewrite andb_false_r.
Qed.

(** The grid of [createInitialGrid]: the castle in the centre, empty tiles
    elsewhere. *)
Lemma createInitialGrid_tiles grid :
  createInitialGrid = Some grid →
  tileAt grid GRID_CENTER_X GRID_CENTER_Y = Some initialCastle ∧
  ∀ x y tile, tileAt grid x y = Some tile →
    (x = GRID_CENTER_X ∧ y = GRID_CENTER_Y) ∨ tile = emptyTile.
Proof.
  intros H. apply createInitialGrid_inv in H as (Hh & Hw & H).
  revert H. unfold placeCastle, emptyGrid, GRID_CENTER_X, GRID_CENTER_Y. simpl.
  intros H. apply bind_Some in H as (row & Hrow & H). injection H as <-.
  apply index_Some in Hrow as [Hcy Hrow].
  pose proof (lookup_lt_Some _ _ _ Hrow) as Hlen.
  apply lookup_replicate in Hrow as [-> _].
  assert (0 ≤ GRID_SIZE / 2) as Hcx by (apply Z.div_pos; lia).
  set (row' := if GRID_SIZE / 2 <? GRID_SIZE
               then <[Z.to_nat (GRID_SIZE / 2) := initialCastle]>
                      (replicate (Z.to_nat GRID_SIZE) emptyTile)
               else replicate (Z.to_nat GRID_SIZE) emptyTile ++ [initialCastle]).
  assert (∀ x tile, 0 ≤ x → row' !! Z.to_nat x = Some tile →
            (x = GRID_SIZE / 2 ∧ tile = initialCastle) ∨ tile = emptyTile)
    as Hrow'.
  { intros x tile Hx. unfold row'.
    destruct (Z.ltb_spec (GRID_SIZE / 2) GRID_SIZE) as [Hlt|Hge].
    - intros [(Heq & <- & _)|(_ & [-> _]%lookup_replicate)]%list_lookup_insert_Some;
        [left; split; [lia|done]|by right].
    - assert (GRID_SIZE = 0) as -> by
        (destruct (decide (GRID_SIZE = 0)); [done|];
         pose proof (Z.div_lt GRID_SIZE 2); lia).
      simpl. destruct (Z.to_nat x) as [|n] eqn:Hn; [|done].
      intros [= <-]. left. split; [|done]. change (0 / 2) with 0. lia. }
  assert (row' !! Z.to_nat (GRID_SIZE / 2) = Some initialCastle) as Hcastle.
  { unfold row'. destruct (Z.ltb_spec (GRID_SIZE / 2) GRID_SIZE) as [Hlt|Hge].
    - apply list_lookup_insert_eq. rewrite length_replicate. lia.
    - assert (GRID_SIZE = 0) as -> by
        (destruct (decide (GRID_SIZE = 0)); [done|];
         pose proof (Z.div_lt GRID_SIZE 2); lia).
      done. }
  split.
  - apply tileAt_Some. do 2 (split; [done|]). exists row'. split; [|done].
    by apply list_lookup_insert_eq.
  - intros x y tile (Hx & Hy & r & Hr & Htile)%tileAt_Some.
    apply list_lookup_insert_Some in Hr
      as [(Heq & <- & _)|(_ & [-> _]%lookup_replicate)].
    + destruct (Hrow' x tile Hx Htile) as [[-> _] | ->]; [left|by right].
      split; [done|lia].
    + apply lookup_replicate in Htile as [-> _]. by right.
Qed.

Lemma castleInvariant_tiles s s' :
  tiles s' = tiles s → castleInvariant s → castleInvariant s'.
Proof. unfold castleInvariant. by intros ->. Qed.

Lemma castleInvariant_init s :
  initialState = Some s → castleInvariant s.
Proof.
  unfold initialState. intros H.
  apply bind_Some in H as (grid & Hgrid & H).
  apply bind_Some in H as (rr & _ & H). injection H as <-.
  destruct (createInitialGrid_tiles grid Hgrid) as [Hc Hrest].
  exists initialCastle. simpl. do 3 (split; [done|]).
  intros x y tile Htile Hb.
  destruct (Hrest x y tile Htile) as [?| ->]; [done|]. done.
Qed.

Lemma castleInvariant_step s s' :
  step s s' → castleInvariant s → castleInvariant s'.
Proof.
  intros Hstep (centre & Hcentre & Hcb & Hco & Huniq).
  assert (castleInvariant s) as Hinv by (exists centre; eauto).
  destruct Hstep as [rnd px py s ok s' H|s ok s' H|deltaTime s].
  - destruct ok; [|by apply buyTile_false in H as ->].
    apply buyTile_true in H
      as (old & randomBiome & newRates & Hold & Hfree & _ & _ & Hrnd & _ & ->).
    pose proof Hold as (Hx & Hy & _)%tileAt_Some.
    assert ((GRID_CENTER_X, GRID_CENTER_Y) ≠ (px, py)) as Hne.
    { intros [= <- <-]. congruence. }
    exists centre. simpl. rewrite tileAt_setTile_ne by done.
    do 3 (split; [done|]). intros x y tile Htile Hb.
    destruct (decide ((x, y) = (px, py))) as [[= -> ->]|Hne'].
    + rewrite (tileAt_setTile_eq _ _ _ old _ Hold) in Htile.
      injection Htile as <-. simpl in Hb. subst randomBiome.
      exfalso. by eapply pickBiome_not_castle.
    + rewrite tileAt_setTile_ne in Htile by done. by eapply Huniq.
  - destruct ok; [|by apply upgradeCastle_false in H as ->].
    apply upgradeCastle_true in H
      as (castle & cx & cy & lvl & cost & newRates & Hfound & _ & _ & _ & _
          & _ & _ & ->).
    destruct (findCastle_sound _ _ _ _ _ Hfound) as (Hc & Hb & _ & _).
    destruct (Huniq cx cy castle Hc Hb) as [-> ->].
    assert (castle = centre) as -> by congruence.
    pose proof Hc as (Hx & Hy & _)%tileAt_Some.
    eexists. simpl. split; [by eapply tileAt_setTile_eq|].
    do 2 (split; [done|]). intros x y tile Htile Hbt.
    destruct (decide ((x, y) = (GRID_CENTER_X, GRID_CENTER_Y)))
      as [[= -> ->]|Hne']; [done|].
    rewrite tileAt_setTile_ne in Htile by done. by eapply Huniq.
  - by apply (castleInvariant_tiles s).
Qed.

(** C7: in every state the store can reach from its creation by [buyTile],
    [upgradeCastle] and [tick], the centre of the grid holds a castle tile,
    that tile is owned, and no other cell holds a castle. *)
Theorem castle_unique_owned_centre s :
  reachable s → castleInvariant s.
Proof.
  induction 1 as [s Hs|s s' _ IH Hs].
  - by apply castleInvariant_init.
  - by apply (castleInvariant_step s).
Qed.

End GridFacts.

(** What the castle branch leaves in [base]: every resource of
    [CASTLE_BASE_RATES] gets its rate times
    [levelMultiplier ^ (level - 1)] added, with [level || 1]. *)
Lemma applyCastle_lookup {num : Type} `{!Number num} `{!GameConfig num}
    (tile : Tile num) (b : gmap resource num) (r : resource) :
  applyCastle tile b !! r =
    match CASTLE_BASE_RATES !! r with
    | Some rate =>
        Some (num_add (to_num (b !! r))
                (num_mul rate
                   (Math_pow (levelMultiplier CASTLE_UPGRADE)
                      (match level tile with
                       | Some l => if l =? 0 then 1 else l
                       | None => 1
                       end - 1))))
    | None => b !! r
    end.
Proof. unfold applyCastle. by rewrite forEach_entry_lookup. Qed.

(** ** The castle scan on a grid with one owned castle *)

Section SingleCastle.
Context {num : Type} `{!Number num} `{!GameConfig num}.
Variables (t : list (list (Tile num))) (castle : Tile num) (cx cy : Z).
Hypothesis Hcastle : tileAt t cx cy = Some castle.
Hypothesis Howned : isOwned castle = true.
Hypothesis Hbiome : biome castle = "castle".

Lemma castleRow_single y xs b :
  (∀ x, x ∈ xs → is_Some (tileAt t x y)) →
  (∀ x tile, x ∈ xs → tileAt t x y = Some tile →
     isOwned tile = true → biome tile = "castle" → x = cx ∧ y = cy) →
  castleRow t y xs b =
    Some (if decide (y = cy ∧ cx ∈ xs) then applyCastle castle b else b).
Proof.
  induction xs as [|x xs IH]; intros Hsome Huniq; simpl.
  - rewrite decide_False; [done|]. by intros [_ ?%elem_of_nil].
  - destruct (Hsome x) as [tile Htile]; [by left|]. rewrite Htile. simpl.
    destruct (isOwned tile && String.eqb (biome tile) "castle") eqn:Hhit.
    + apply andb_true_iff in Hhit as [Ho Hb%String.eqb_eq].
      destruct (Huniq x tile) as [-> ->]; [by left|done..|].
      assert (tile = castle) as -> by congruence.
      rewrite decide_True; [done|]. split; [done|by left].
    + rewrite IH.
      * f_equal. destruct (decide (y = cy ∧ cx ∈ xs)) as [[-> Hin]|Hn].
        { rewrite decide_True; [done|]. split; [done|by right]. }
        destruct (decide (y = cy ∧ cx ∈ x :: xs)) as [[-> Hin]|]; [|done].
        apply elem_of_cons in Hin as [->|Hin]; [|by destruct Hn].
        exfalso. assert (tile = castle) as -> by congruence.
        rewrite Howned, Hbiome in Hhit. done.
      * intros x' Hx'. apply Hsome. by right.
      * intros x' tile' Hx'. apply Huniq. by right.
Qed.

Lemma castleScan_single ys b :
  NoDup ys → cx ∈ seqZ 0 GRID_SIZE →
  (∀ x y, y ∈ ys → x ∈ seqZ 0 GRID_SIZE → is_Some (tileAt t x y)) →
  (∀ x y tile, y ∈ ys → x ∈ seqZ 0 GRID_SIZE → tileAt t x y = Some tile →
     isOwned tile = true → biome tile = "castle" → x = cx ∧ y = cy) →
  castleScan t ys b =
    Some (if decide (cy ∈ ys) then applyCastle castle b else b).
Proof.
  intros Hnd Hcx. revert b.
  induction Hnd as [|y ys Hy Hnd IH]; intros b Hsome Huniq; simpl.
  - done.
  - rewrite castleRow_single.
    + simpl. rewrite IH.
      * f_equal. destruct (decide (y = cy ∧ cx ∈ seqZ 0 GRID_SIZE))
          as [[-> _]|Hn].
        { rewrite decide_False by done. rewrite decide_True; [done|by left]. }
        destruct (decide (cy ∈ ys)) as [Hin|Hnin].
        { rewrite decide_True; [done|by right]. }
        rewrite decide_False; [done|].
        intros [->|?]%elem_of_cons; [|done]. by destruct Hn.
      * intros x y' Hy'. apply Hsome. by right.
      * intros x y' tile Hy'. apply Huniq. by right.
    + intros x Hx. apply Hsome; [by left|done].
    + intros x tile Hx. apply Huniq; [by left|done].
Qed.

(** With a single owned castle inside the bounds, the calculator adds the
    scaled castle rates to the base rates exactly once. *)
Lemma calculateResourceRates_single_castle rr :
  gridOk t = true → inBounds cx cy →
  (∀ x y tile, inBounds x y → tileAt t x y = Some tile →
     isOwned tile = true → biome tile = "castle" → x = cx ∧ y = cy) →
  calculateResourceRates t = Some rr →
  base rr = applyCastle castle BASE_GENERATION_RATES.
Proof.
  intros Hg [Hx Hy] Huniq H. unfold calculateResourceRates in H.
  rewrite (castleScan_single (seqZ 0 GRID_HEIGHT)) in H.
  - rewrite decide_True in H by (apply elem_of_seqZ; lia).
    simpl in H. apply bind_Some in H as (m & _ & H). by injection H as <-.
  - apply NoDup_seqZ.
  - apply elem_of_seqZ. lia.
  - intros x y Hy'%elem_of_seqZ Hx'%elem_of_seqZ.
    apply gridOk_tileAt; [done|]. split; lia.
  - intros x y tile Hy'%elem_of_seqZ Hx'%elem_of_seqZ.
    apply Huniq. split; lia.
Qed.

End SingleCastle.

(** ** The calculator on a grid with several castles *)

(** C4: the scan of the rate calculator does not stop at the first castle.
    Its [break] leaves the loop over the columns only, so a second owned
    castle is skipped when it is in the row of the first one, and is added
    again when it is in a later row: with [BASE_GENERATION_RATES.gold = 0.5]
    and a castle rate of 1 for gold, one castle gives a base of 1.5, two
    castles in one row give 1.5, two castles in different rows give 2.5. *)
Theorem castle_rates_added_per_row :
  base <$> calculateResourceRates Demo.oneCastle
    = Some (Demo.bundle 1.5 0.5 0 0 0 0) ∧
  base <$> calculateResourceRates Demo.rowCastles
    = Some (Demo.bundle 1.5 0.5 0 0 0 0) ∧
  base <$> calculateResourceRates Demo.twoCastles
    = Some (Demo.bundle 2.5 1 0 0 0 0).
Proof. repeat split; vm_compute; reflexivity. Qed.

(** ** The store on the small configuration *)

Module DemoFacts.
Import Demo.

Lemma start_initial : initialState = Some start.
Proof. vm_compute. reflexivity. Qed.

Lemma buy_start : buyTile 0 0 1 start = Some (true, bought).
Proof. vm_compute. reflexivity. Qed.

Lemma upgrade_bought : upgradeCastle bought = Some (true, upgraded).
Proof. vm_compute. reflexivity. Qed.

Lemma reachable_start : reachable start.
Proof. apply reachable_init, start_initial. Qed.

Lemma reachable_bought : reachable bought.
Proof.
  eapply reachable_step; [apply reachable_start|].
  eapply step_buyTile, buy_start.
Qed.

Lemma reachable_upgraded : reachable upgraded.
Proof.
  eapply reachable_step; [apply reachable_bought|].
  eapply step_upgradeCastle, upgrade_bought.
Qed.

Lemma inBounds_demo x y :
  inBounds x y ↔ (0 ≤ x < 3) ∧ (0 ≤ y < 3).
Proof. done. Qed.

(** The castle of [upgraded] is the tile in the centre, and the only one. *)
Lemma upgraded_castle_only x y tile :
  tileAt (tiles upgraded) x y = Some tile → biome tile = "castle" →
  x = 1 ∧ y = 1.
Proof.
  intros Htile Hb.
  pose proof (castleInvariant_step _ _
    (step_upgradeCastle _ _ _ upgrade_bought)
    (castleInvariant_step _ _ (step_buyTile _ _ _ _ _ _ buy_start)
       (castleInvariant_init _ start_initial))) as (_ & _ & _ & _ & Huniq).
  exact (Huniq x y tile Htile Hb).
Qed.

End DemoFacts.



(** The rates of the small configuration, as computed and as
    stored after creation, a purchase and an upgrade. *)
Lemma rates_identity_witness :
  (∃ rr, calculateResourceRates (tiles Demo.bought) = Some rr ∧
         ratesConsistent rr) ∧
  total (resourceRates Demo.start) !! gold = Some 1.5%float ∧
  total (resourceRates Demo.start) !! xp
    = Some (PrimFloat.mul 0%float PrimFloat.nan) ∧
  ratesConsistent (resourceRates Demo.start) ∧
  ratesConsistent (resourceRates Demo.bought) ∧
  ratesConsistent (resourceRates Demo.upgraded).
Proof.
  destruct (@rates_identity float _ _)
    as (Htotal & Hlookup & Hkinds & Hinit & Hstep & Hreach).
  assert (calculateResourceRates (tiles Demo.start)
            = Some (resourceRates Demo.start)) as Hstart
    by (vm_compute; reflexivity).
  split; [|split; [|split; [|split; [|split]]]].
  - apply Htotal. vm_compute. reflexivity.
  - exact (Hlookup _ _ gold Hstart).
  - refine (Hkinds _ _ _ xp Hstart).
    intros []; vm_compute; eexists; reflexivity.
  - apply Hinit, DemoFacts.start_initial.
  - apply (Hstep Demo.start).
    + eapply step_buyTile, DemoFacts.buy_start.
    + apply Hinit, DemoFacts.start_initial.
  - apply Hreach, DemoFacts.reachable_upgraded.
Defined.

(** Buying the tile left of the castle in the fresh state. *)
Lemma buyTile_succeeds_iff_witness :
  ∃ s', buyTile 0 0 1 Demo.start = Some (true, s') ∧
        resources s' !! gold = Some 150%float ∧
        ∃ tile', tileAt (tiles s') 0 1 = Some tile' ∧ biome tile' = "forest".
Proof.
  destruct (buyTile_succeeds_iff 0 0 1 Demo.start)
    as (ok & s' & tile & Htile & Hbuy & Hiff & Heff).
  - apply DemoFacts.inBounds_demo. lia.
  - vm_compute. reflexivity.
  - vm_compute. lia.
  - vm_compute. reflexivity.
  - rewrite DemoFacts.buy_start in Hbuy.
    assert (ok = true ∧ s' = Demo.bought) as [-> ->] by (split; congruence).
    exists Demo.bought. split; [apply DemoFacts.buy_start|].
    destruct (Heff eq_refl) as (Hgold & tile' & Htile' & _).
    split; [exact Hgold|]. eexists. split; vm_compute; reflexivity.
Defined.

(** In the upgraded state the castle tile cannot be bought,
    a tile away from the owned ones cannot, no tile can with 90 gold, and
    the next upgrade (200 gold) is out of reach. *)
Lemma failure_leaves_state_witness :
  buyTile 0 1 1 Demo.upgraded = Some (false, Demo.upgraded) ∧
  buyTile 0 2 2 Demo.upgraded = Some (false, Demo.upgraded) ∧
  buyTile 0 0 0 Demo.upgraded = Some (false, Demo.upgraded) ∧
  upgradeCastle Demo.upgraded = Some (false, Demo.upgraded).
Proof.
  destruct (failure_leaves_state Demo.upgraded) as (Hbuy & Hup & Hpre).
  destruct Hpre as [Hbuyf Hupf]; [vm_compute; reflexivity|].
  assert (upgradeCastle Demo.upgraded = Some (false, Demo.upgraded)) as Hfail.
  { eapply (Hupf _ 1 1).
    - apply DemoFacts.inBounds_demo. lia.
    - vm_compute. reflexivity.
    - reflexivity.
    - intros x y tile _. apply DemoFacts.upgraded_castle_only.
    - right. eexists _, gold, 200%float.
      split; [reflexivity|]. split; vm_compute; reflexivity. }
  split; [|split; [|split]].
  - assert (buyTile 0 1 1 Demo.upgraded = Some (false, Demo.upgraded)) as Ho.
    { eapply Hbuyf; [vm_compute; reflexivity|]. left. reflexivity. }
    destruct (Hbuy _ _ _ _ Ho). exact Ho.
  - eapply Hbuyf; [vm_compute; reflexivity|]. right. left.
    intros [Ho|[Ho|[Ho|Ho]]]; destruct Ho as (Hin & tile & Htile & Ho);
      apply (proj1 (DemoFacts.inBounds_demo _ _)) in Hin;
      try lia; vm_compute in Htile; injection Htile as <-; discriminate Ho.
  - eapply Hbuyf; [vm_compute; reflexivity|]. right. right.
    vm_compute. reflexivity.
  - destruct (Hup _ Hfail). exact Hfail.
Defined.

(** The upgrade of the level 1 castle of the bought state. *)
Lemma upgradeCastle_effect_witness :
  ∃ castle', tileAt (tiles Demo.upgraded) 1 1 = Some castle' ∧
    level castle' = Some 2 ∧
    (upgradeCost castle' = CostNull ↔ 1 + 1 = 3) ∧
    resources Demo.upgraded !! gold = Some 90%float ∧
    resources Demo.upgraded !! stone = resources Demo.bought !! stone.
Proof.
  destruct (upgradeCastle_effect Demo.bought Demo.upgraded
              DemoFacts.upgrade_bought)
    as (castle & cx & cy & lvl & cost & castle' & Hfound & _ & _ & Hlvl
        & Hcost & Hnew & _ & Hlvl' & _ & Hnull & Hpaid & Hkept).
  vm_compute in Hfound. injection Hfound as <- <- <-.
  injection Hlvl as <-. injection Hcost as <-.
  exists castle'. split; [exact Hnew|]. split; [exact Hlvl'|].
  split; [|split].
  - apply Hnull; [reflexivity|lia].
  - apply (Hpaid gold 60%float). vm_compute. reflexivity.
  - apply (Hkept stone). vm_compute. reflexivity.
Defined.

(** The castle in the state after a purchase and an upgrade. *)
Lemma castle_unique_owned_centre_witness : castleInvariant Demo.upgraded.
Proof.
  apply castle_unique_owned_centre, DemoFacts.reachable_upgraded.
Defined.

(** The castle stays owned across the purchase. *)
Lemma ownership_never_reverts_witness :
  ∃ tile', tileAt (tiles Demo.bought) 1 1 = Some tile' ∧ isOwned tile' = true.
Proof.
  eapply (ownership_never_reverts Demo.start Demo.bought 1 1).
  - eapply step_buyTile, DemoFacts.buy_start.
  - vm_compute. reflexivity.
  - reflexivity.
Defined.

(** The purchase at (0, 1) and the upgrade at (1, 1) leave
    the corner (2, 2) and each other's cell alone. *)
Lemma single_cell_change_witness :
  tileAt (tiles Demo.bought) 1 1 = tileAt (tiles Demo.start) 1 1 ∧
  tileAt (tiles Demo.upgraded) 0 1 = tileAt (tiles Demo.bought) 0 1.
Proof.
  split.
  - destruct (single_cell_change Demo.start Demo.bought) as [Hbuy _].
    destruct (Hbuy 0%nat 0 1 DemoFacts.buy_start) as [_ Hrest].
    apply Hrest. intros [=].
  - destruct (single_cell_change Demo.bought Demo.upgraded) as [_ Hup].
    destruct (Hup DemoFacts.upgrade_bought)
      as (castle & cx & cy & Hc & Hb & _ & Hrest).
    apply Hrest. intros [= <- <-].
    vm_compute in Hc. injection Hc as <-. discriminate Hb.
Defined.

(** * Further properties of the store and its callers *)

(** ** When the calculator and the store creation return *)

Section ReturnFacts.
Context {num : Type} `{!Number num} `{!GameConfig num}.
Implicit Types (t : list (list (Tile num))) (m : gmap resource num).

Lemma modifierRow_cells t y xs m m' x :
  modifierRow t y xs m = Some m' → x ∈ xs → cellOk t x y = true.
Proof.
  revert m. induction xs as [|x0 xs IH]; intros m H Hx; simpl in H.
  - by apply elem_of_nil in Hx.
  - apply bind_Some in H as (tile & Htile & H).
    apply bind_Some in H as (m1 & Hm1 & H).
    apply elem_of_cons in Hx as [->|Hx]; [|by eapply IH].
    unfold cellOk. rewrite Htile. unfold applyModifiers in Hm1.
    destruct (isOwned tile); [|done]. simpl.
    by destruct (BIOMES_get (biome tile)).
Qed.

Lemma modifierScan_cells t ys m m' x y :
  modifierScan t ys m = Some m' → y ∈ ys → x ∈ seqZ 0 GRID_SIZE →
  cellOk t x y = true.
Proof.
  revert m. induction ys as [|y0 ys IH]; intros m H Hy Hx; simpl in H.
  - by apply elem_of_nil in Hy.
  - apply bind_Some in H as (m1 & Hm1 & H).
    apply elem_of_cons in Hy as [->|Hy]; [|by eapply IH].
    by eapply modifierRow_cells.
Qed.

Lemma calculateResourceRates_gridOk t rr :
  calculateResourceRates t = Some rr → gridOk t = true.
Proof.
  unfold calculateResourceRates. intros H.
  apply bind_Some in H as (b & _ & H). apply bind_Some in H as (m & Hm & _).
  apply gridOk_intro. intros x y [Hx Hy].
  eapply modifierScan_cells; [done|..]; apply elem_of_seqZ; lia.
Qed.

(** X2: the rate calculator throws exactly when a cell inside the bounds
    is missing or an owned tile inside the bounds has a biome that is not
    in the catalog; on every other grid it returns. *)
Theorem calculateResourceRates_returns_iff t :
  is_Some (calculateResourceRates t) ↔ gridOk t = true.
Proof.
  split.
  - intros [rr Hrr]. by eapply calculateResourceRates_gridOk.
  - apply calculateResourceRates_total.
Qed.

Lemma createInitialGrid_None :
  GRID_HEIGHT ≤ 0 ∨ MAX_ARRAY_LENGTH < GRID_HEIGHT ∨
  GRID_SIZE < 0 ∨ MAX_ARRAY_LENGTH < GRID_SIZE →
  createInitialGrid = None.
Proof.
  intros Hbad. destruct createInitialGrid as [grid|] eqn:Hgrid; [|done].
  apply createInitialGrid_inv in Hgrid as (Hh & Hw & _). lia.
Qed.

Lemma createInitialGrid_is_Some :
  0 < GRID_HEIGHT ≤ MAX_ARRAY_LENGTH → 0 ≤ GRID_SIZE ≤ MAX_ARRAY_LENGTH →
  is_Some createInitialGrid.
Proof.
  intros Hh Hw. rewrite createInitialGrid_run by done.
  unfold placeCastle, emptyGrid, GRID_CENTER_Y. simpl.
  assert (0 ≤ GRID_HEIGHT / 2 < GRID_HEIGHT) as [Hc0 Hc1].
  { split; [apply Z.div_pos; lia|apply Z.div_lt; lia]. }
  unfold index. destruct (Z.ltb_spec (GRID_HEIGHT / 2) 0); [lia|].
  rewrite lookup_replicate_2 by lia. by eexists.
Qed.

Lemma createInitialGrid_lengths grid :
  createInitialGrid = Some grid → 0 < GRID_SIZE →
  length grid = Z.to_nat GRID_HEIGHT ∧
  ∀ row, row ∈ grid → length row = Z.to_nat GRID_SIZE.
Proof.
  intros H Hw. apply createInitialGrid_inv in H as (Hh & _ & H).
  revert H. unfold placeCastle, emptyGrid, GRID_CENTER_X, GRID_CENTER_Y. simpl.
  intros H. apply bind_Some in H as (row & Hrow & H). injection H as <-.
  apply index_Some in Hrow as [_ Hrow].
  apply lookup_replicate in Hrow as [-> _].
  destruct (Z.ltb_spec (GRID_SIZE / 2) GRID_SIZE) as [_|Hge];
    [|pose proof (Z.div_lt GRID_SIZE 2); lia].
  split; [by rewrite length_insert, length_replicate|].
  intros row [i Hi]%list_elem_of_lookup_1.
  apply list_lookup_insert_Some in Hi
    as [(_ & <- & _)|(_ & [-> _]%lookup_replicate)].
  - by rewrite length_insert, length_replicate.
  - by rewrite length_replicate.
Qed.

Lemma createInitialGrid_cells grid x y :
  createInitialGrid = Some grid → inBounds x y →
  is_Some (tileAt grid x y).
Proof.
  intros Hgrid [[Hx0 Hx1] [Hy0 Hy1]].
  destruct (createInitialGrid_lengths grid Hgrid) as [Hlen Hrows]; [lia|].
  destruct (lookup_lt_is_Some_2 grid (Z.to_nat y)) as [row Hrow]; [lia|].
  destruct (lookup_lt_is_Some_2 row (Z.to_nat x)) as [tile Htile].
  { rewrite (Hrows row); [lia|]. by eapply list_elem_of_lookup_2. }
  exists tile. apply tileAt_Some. eauto.
Qed.

(** X1: with at least one row and one column, and neither dimension above
    the largest array length [2^32 - 1], [createInitialGrid] returns
    [GRID_HEIGHT] rows of [GRID_SIZE] tiles, the level 1 castle (owned,
    priced at [upgradeCosts[0]]) at the centre and the empty unowned tile in
    every other cell; without a row, with a negative width, or with a
    dimension above [2^32 - 1], it throws. *)
Theorem createInitialGrid_shape :
  (0 < GRID_HEIGHT ≤ MAX_ARRAY_LENGTH → 0 < GRID_SIZE ≤ MAX_ARRAY_LENGTH →
   ∃ grid, createInitialGrid = Some grid ∧
     length grid = Z.to_nat GRID_HEIGHT ∧
     (∀ row, row ∈ grid → length row = Z.to_nat GRID_SIZE) ∧
     tileAt grid GRID_CENTER_X GRID_CENTER_Y = Some initialCastle ∧
     ∀ x y, inBounds x y → (x, y) ≠ (GRID_CENTER_X, GRID_CENTER_Y) →
       tileAt grid x y = Some emptyTile) ∧
  (GRID_HEIGHT ≤ 0 ∨ MAX_ARRAY_LENGTH < GRID_HEIGHT ∨
   GRID_SIZE < 0 ∨ MAX_ARRAY_LENGTH < GRID_SIZE →
   createInitialGrid = None).
Proof.
  split; [|apply createInitialGrid_None].
  intros Hh Hw.
  destruct createInitialGrid_is_Some as [grid Hgrid]; [lia..|].
  destruct (createInitialGrid_lengths grid Hgrid) as [Hlen Hrows]; [lia|].
  destruct (createInitialGrid_tiles grid Hgrid) as [Hcentre Hrest].
  exists grid. do 4 (split; [done|]).
  intros x y Hin Hne.
  destruct (createInitialGrid_cells grid x y Hgrid Hin) as [tile Htile].
  destruct (Hrest x y tile Htile) as [[-> ->]| ->]; done.
Qed.

(** X3: the store creation returns exactly when the grid has a row, its
    width is not negative, neither dimension is above the largest array
    length [2^32 - 1] and, for a grid with a column, the catalog has the
    castle biome; otherwise it throws. *)
Theorem initialState_returns_iff :
  is_Some initialState ↔
  0 < GRID_HEIGHT ≤ MAX_ARRAY_LENGTH ∧ 0 ≤ GRID_SIZE ≤ MAX_ARRAY_LENGTH ∧
  (0 < GRID_SIZE → is_Some (BIOMES_get "castle")).
Proof.
  unfold initialState. split.
  - intros [s H]. apply bind_Some in H as (grid & Hgrid & H).
    apply bind_Some in H as (rr & Hrr & _).
    destruct (createInitialGrid_inv grid Hgrid) as (Hh & Hw & _).
    do 2 (split; [done|]). intros Hw'.
    apply calculateResourceRates_gridOk in Hrr.
    destruct (createInitialGrid_tiles grid Hgrid) as [Hcentre _].
    assert (inBounds GRID_CENTER_X GRID_CENTER_Y) as Hin.
    { unfold inBounds, GRID_CENTER_X, GRID_CENTER_Y.
      pose proof (Z.div_lt GRID_SIZE 2). pose proof (Z.div_lt GRID_HEIGHT 2).
      pose proof (Z.div_pos GRID_SIZE 2). pose proof (Z.div_pos GRID_HEIGHT 2).
      lia. }
    pose proof (gridOk_cell _ _ _ Hrr Hin) as Hc.
    destruct (cellOk_Some _ _ _ Hc) as (tile & Htile & Hb).
    rewrite Hcentre in Htile. injection Htile as <-. by apply Hb.
  - intros (Hh & Hw & Hcastle).
    destruct createInitialGrid_is_Some as [grid Hgrid]; [done..|].
    rewrite Hgrid. simpl.
    destruct (calculateResourceRates_total grid) as [rr ->]; [|by eexists].
    apply gridOk_intro. intros x y Hin.
    destruct (createInitialGrid_cells grid x y Hgrid Hin) as [tile Htile].
    destruct (createInitialGrid_tiles grid Hgrid) as [Hcentre Hrest].
    unfold cellOk. rewrite Htile.
    destruct (Hrest x y tile Htile) as [[-> ->]| ->]; [|done].
    rewrite Hcentre in Htile. injection Htile as <-. simpl.
    destruct Hcastle as [info ->]; [|done]. destruct Hin. lia.
Qed.

End ReturnFacts.

(** ** The fresh state *)

Section OneOwnedTile.
Context {num : Type} `{!Number num} `{!GameConfig num}.
Variables (t : list (list (Tile num))) (only : Tile num) (cx cy : Z).
Hypothesis Honly : tileAt t cx cy = Some only.

Lemma modifierRow_single y xs m :
  NoDup xs →
  (∀ x, x ∈ xs → is_Some (tileAt t x y)) →
  (∀ x tile, x ∈ xs → tileAt t x y = Some tile → isOwned tile = true →
     x = cx ∧ y = cy) →
  modifierRow t y xs m =
    if decide (y = cy ∧ cx ∈ xs) then applyModifiers only m else Some m.
Proof.
  intros Hnd. revert m.
  induction Hnd as [|x xs Hx Hnd IH]; intros m Hsome Huniq; simpl.
  - rewrite decide_False; [done|]. by intros [_ ?%elem_of_nil].
  - destruct (Hsome x) as [tile Htile]; [by left|]. rewrite Htile. simpl.
    assert (∀ m1, modifierRow t y xs m1 =
              if decide (y = cy ∧ cx ∈ xs) then applyModifiers only m1
              else Some m1) as IH'.
    { intros m1. apply IH.
      - intros x' Hx'. apply Hsome. by right.
      - intros x' tile' Hx'. apply Huniq. by right. }
    destruct (decide (x = cx ∧ y = cy)) as [[-> ->]|Hne].
    + assert (tile = only) as -> by congruence.
      rewrite decide_True by (split; [done|by left]).
      destruct (applyModifiers only m) as [m1|]; [|done]. simpl.
      rewrite IH'. rewrite decide_False; [done|]. by intros [_ ?].
    + assert (applyModifiers tile m = Some m) as ->.
      { unfold applyModifiers. destruct (isOwned tile) eqn:Ho; [|done].
        destruct Hne. apply (Huniq x tile); [by left|done..]. }
      simpl. rewrite IH'.
      destruct (decide (y = cy ∧ cx ∈ xs)) as [[-> Hin]|Hn].
      * rewrite decide_True; [done|]. split; [done|by right].
      * rewrite decide_False; [done|].
        intros [-> [->|Hin]%elem_of_cons]; [by destruct Hne|by destruct Hn].
Qed.

Lemma modifierScan_single ys m :
  NoDup ys → cx ∈ seqZ 0 GRID_SIZE →
  (∀ x y, y ∈ ys → x ∈ seqZ 0 GRID_SIZE → is_Some (tileAt t x y)) →
  (∀ x y tile, y ∈ ys → x ∈ seqZ 0 GRID_SIZE → tileAt t x y = Some tile →
     isOwned tile = true → x = cx ∧ y = cy) →
  modifierScan t ys m =
    if decide (cy ∈ ys) then applyModifiers only m else Some m.
Proof.
  intros Hnd Hcx. revert m.
  induction Hnd as [|y ys Hy Hnd IH]; intros m Hsome Huniq; simpl; [done|].
  assert (∀ m1, modifierScan t ys m1 =
            if decide (cy ∈ ys) then applyModifiers only m1 else Some m1)
    as IH'.
  { intros m1. apply IH.
    - intros x y' Hy'. apply Hsome. by right.
    - intros x y' tile Hy'. apply Huniq. by right. }
  rewrite modifierRow_single.
  - destruct (decide (y = cy ∧ cx ∈ seqZ 0 GRID_SIZE)) as [[-> _]|Hn].
    + rewrite decide_True by (by left).
      destruct (applyModifiers only m) as [m1|]; [|done]. simpl.
      rewrite IH'. by rewrite decide_False.
    + simpl. rewrite IH'.
      destruct (decide (cy ∈ ys)) as [Hin|Hnin].
      * rewrite decide_True; [done|by right].
      * rewrite decide_False; [done|].
        intros [->|?]%elem_of_cons; [by destruct Hn|done].
  - apply NoDup_seqZ.
  - intros x Hx. apply Hsome; [by left|done].
  - intros x tile Hx. apply Huniq; [by left|done].
Qed.

End OneOwnedTile.

Section FreshFacts.
Context {num : Type} `{!Number num} `{!GameConfig num}.

Lemma centre_inBounds :
  0 < GRID_HEIGHT → 0 < GRID_SIZE → inBounds GRID_CENTER_X GRID_CENTER_Y.
Proof.
  unfold inBounds, GRID_CENTER_X, GRID_CENTER_Y. intros Hh Hw.
  pose proof (Z.div_lt GRID_SIZE 2). pose proof (Z.div_lt GRID_HEIGHT 2).
  pose proof (Z.div_pos GRID_SIZE 2). pose proof (Z.div_pos GRID_HEIGHT 2).
  lia.
Qed.

(** In the initial grid only the centre is owned. *)
Lemma createInitialGrid_owned grid x y tile :
  createInitialGrid = Some grid → tileAt grid x y = Some tile →
  isOwned tile = true → x = GRID_CENTER_X ∧ y = GRID_CENTER_Y.
Proof.
  intros Hgrid Htile Ho.
  destruct (createInitialGrid_tiles grid Hgrid) as [_ Hrest].
  destruct (Hrest x y tile Htile) as [?| ->]; done.
Qed.

Lemma initialState_inv s :
  initialState = Some s →
  ∃ grid rr, createInitialGrid = Some grid ∧
    calculateResourceRates grid = Some rr ∧
    s = mkState grid INITIAL_RESOURCES rr (modifiers rr).
Proof.
  unfold initialState. intros H.
  apply bind_Some in H as (grid & Hgrid & H).
  apply bind_Some in H as (rr & Hrr & H). injection H as <-. eauto.
Qed.

Lemma createInitialGrid_height grid :
  createInitialGrid = Some grid → 0 < GRID_HEIGHT.
Proof.
  intros Hgrid. apply createInitialGrid_inv in Hgrid as (Hh & _). lia.
Qed.

(** X4: in the state the store is created with (a grid with a column), the
    base rate of a resource is the global base rate plus, when the castle
    has a rate for it, that rate times [levelMultiplier ^ 0]; the modifier
    of a resource is 1.0 (nothing for a resource outside the five of the
    literal) times the castle biome's factor when it has one; the holdings
    are [INITIAL_RESOURCES] and the stored modifiers are those of the
    rates. *)
Theorem fresh_rates s info :
  initialState = Some s → 0 < GRID_SIZE →
  BIOMES_get "castle" = Some info →
  (∀ r, base (resourceRates s) !! r =
     match CASTLE_BASE_RATES !! r with
     | Some rate =>
         Some (num_add (to_num (BASE_GENERATION_RATES !! r))
                 (num_mul rate
                    (Math_pow (levelMultiplier CASTLE_UPGRADE) 0)))
     | None => BASE_GENERATION_RATES !! r
     end) ∧
  (∀ r, modifiers (resourceRates s) !! r =
     match resourceModifiers_of info !! r with
     | Some factor =>
         Some (num_mul (to_num (initialModifiers !! r)) factor)
     | None => initialModifiers !! r
     end) ∧
  resources s = INITIAL_RESOURCES ∧
  resourceModifiers s = modifiers (resourceRates s).
Proof.
  intros Hs Hw Hinfo.
  apply initialState_inv in Hs as (grid & rr & Hgrid & Hrr & ->). simpl.
  pose proof (createInitialGrid_height grid Hgrid) as Hh.
  pose proof (centre_inBounds Hh Hw) as Hin.
  destruct (createInitialGrid_tiles grid Hgrid) as [Hcentre _].
  pose proof (calculateResourceRates_gridOk grid rr Hrr) as Hg.
  split; [|split; [|done]].
  - intros r.
    rewrite (calculateResourceRates_single_castle grid initialCastle
               GRID_CENTER_X GRID_CENTER_Y Hcentre eq_refl eq_refl rr Hg Hin);
      [|by intros x y tile _ Htile Ho _;
           eapply createInitialGrid_owned|done].
    by rewrite applyCastle_lookup.
  - intros r. unfold calculateResourceRates in Hrr.
    apply bind_Some in Hrr as (b & _ & Hrr).
    apply bind_Some in Hrr as (m & Hm & Hrr). injection Hrr as <-. simpl.
    destruct Hin as [Hx Hy].
    rewrite (modifierScan_single grid initialCastle GRID_CENTER_X
               GRID_CENTER_Y Hcentre) in Hm.
    + rewrite decide_True in Hm by (apply elem_of_seqZ; lia).
      unfold applyModifiers in Hm. simpl in Hm. rewrite Hinfo in Hm.
      simpl in Hm. injection Hm as <-. by rewrite forEach_entry_lookup.
    + apply NoDup_seqZ.
    + apply elem_of_seqZ. lia.
    + intros x y Hy'%elem_of_seqZ Hx'%elem_of_seqZ.
      apply gridOk_tileAt; [done|]. split; lia.
    + intros x y tile _ _ Htile Ho. by eapply createInitialGrid_owned.
Qed.

(** X5: in the state the store is created with, the cells with an owned
    neighbour are exactly the ones at distance 1 from the centre, left,
    right, above or below it. *)
Theorem fresh_frontier s x y :
  initialState = Some s → 0 < GRID_SIZE →
  (ownedNeighbour (tiles s) x y ↔
   Z.abs (x - GRID_CENTER_X) + Z.abs (y - GRID_CENTER_Y) = 1).
Proof.
  intros Hs Hw.
  apply initialState_inv in Hs as (grid & rr & Hgrid & _ & ->). simpl.
  pose proof (createInitialGrid_height grid Hgrid) as Hh.
  pose proof (centre_inBounds Hh Hw) as Hin.
  destruct (createInitialGrid_tiles grid Hgrid) as [Hcentre _].
  assert (∀ x' y', ownedAt grid x' y' ↔
            x' = GRID_CENTER_X ∧ y' = GRID_CENTER_Y) as Hat.
  { intros x' y'. split.
    - intros (_ & tile & Htile & Ho). by eapply createInitialGrid_owned.
    - intros [-> ->]. split; [done|]. by exists initialCastle. }
  unfold ownedNeighbour. rewrite !Hat. lia.
Qed.

End FreshFacts.

(** ** Affordability and the adjacency flag of the Tile component *)

Section CallerFacts.
Context {num : Type} `{!Number num} `{!GameConfig num}.

(** X6: a flat cost is the bundle that names gold only; the empty bundle
    is always affordable; whoever can afford a bundle can afford every part
    of it. *)
Theorem canAffordCost_shapes (res : gmap resource num) :
  (∀ n, canAffordCost res (inl n) = canAffordCost res (inr {[gold := n]})) ∧
  canAffordCost res (inr ∅) = true ∧
  (∀ c c' : gmap resource num, c ⊆ c' →
     canAffordCost res (inr c') = true → canAffordCost res (inr c) = true).
Proof.
  split; [|split].
  - intros n. simpl. rewrite map_to_list_singleton. simpl.
    by rewrite andb_true_r.
  - simpl. by rewrite map_to_list_empty.
  - intros c c' Hsub Hc'. rewrite canAffordCost_bundle in Hc'.
    apply canAffordCost_bundle. intros r amount Hr.
    apply Hc'. by eapply lookup_weaken.
Qed.

Lemma Tile_isAdjacent_true t isOwnedProp x y :
  Tile_isAdjacent (Some t) isOwnedProp x y = true ↔
  isOwnedProp = false ∧ ownedNeighbour t x y.
Proof.
  unfold Tile_isAdjacent. destruct isOwnedProp.
  { split; [done|by intros [? _]]. }
  rewrite existsb_exists. unfold ownedNeighbour, ownedAt. split.
  - intros ([ax ay] & Hin & Hhit). split; [done|].
    apply andb_true_iff in Hhit as [Hb Ho]. apply inBounds_test in Hb.
    simpl in Hb, Ho.
    assert (inBounds ax ay ∧
            ∃ tile, tileAt t ax ay = Some tile ∧ isOwned tile = true) as Hat.
    { split; [done|]. destruct (tileAt t ax ay) as [tile|]; [|done]. eauto. }
    simpl in Hin.
    destruct Hin as [[= <- <-]|[[= <- <-]|[[= <- <-]|[[= <- <-]|[]]]]];
      auto.
  - intros [_ Hn].
    assert (∀ ax ay, inBounds ax ay ∧
              (∃ tile, tileAt t ax ay = Some tile ∧ isOwned tile = true) →
              (0 <=? ax) && (ax <? GRID_SIZE) && (0 <=? ay) &&
              (ay <? GRID_HEIGHT) &&
              match tileAt t ax ay with
              | Some tile => isOwned tile
              | None => false
              end = true) as Hhit.
    { intros ax ay (Hb & tile & Htile & Ho). apply andb_true_iff.
      split; [by apply inBounds_test|]. by rewrite Htile. }
    destruct Hn as [Ho|[Ho|[Ho|Ho]]];
      [exists (x - 1, y)|exists (x + 1, y)|exists (x, y - 1)|exists (x, y + 1)];
      (split; [simpl; auto 6|by apply Hhit]).
Qed.

(** X7: the component shows a tile as adjacent exactly when the tile is
    not owned, the grid is there and one of the four neighbours inside the
    bounds is there and owned; a missing row or tile is never an error. *)
Theorem Tile_isAdjacent_spec
    (tilesProp : option (list (list (Tile num)))) isOwnedProp x y :
  Tile_isAdjacent tilesProp isOwnedProp x y = true ↔
  isOwnedProp = false ∧ ∃ t, tilesProp = Some t ∧ ownedNeighbour t x y.
Proof.
  destruct tilesProp as [t|].
  - rewrite Tile_isAdjacent_true. split.
    + intros [? ?]. eauto.
    + intros (? & t' & [= <-] & ?). done.
  - simpl. split; [done|]. by intros (_ & t & ? & _).
Qed.

(** X8: the component and the store agree on adjacency.  Where the store's
    test returns, the flag of an unowned tile is its answer; a purchase the
    store accepts is at a tile the component shows as adjacent; and on a
    grid the calculator can process the store refuses every tile the
    component does not show as adjacent. *)
Theorem Tile_isAdjacent_agrees (s : GameState num) x y tile :
  tileAt (tiles s) x y = Some tile →
  (∀ hit, isAdjacentToOwned (tiles s) x y = Some hit →
     Tile_isAdjacent (Some (tiles s)) false x y = hit) ∧
  (∀ rnd s', buyTile rnd x y s = Some (true, s') →
     Tile_isAdjacent (Some (tiles s)) (isOwned tile) x y = true) ∧
  (gridOk (tiles s) = true →
   Tile_isAdjacent (Some (tiles s)) (isOwned tile) x y = false →
   ∀ rnd, buyTile rnd x y s = Some (false, s)).
Proof.
  intros Htile.
  assert (∀ hit, isAdjacentToOwned (tiles s) x y = Some hit →
            Tile_isAdjacent (Some (tiles s)) false x y = hit) as Hagree.
  { intros hit Hhit. apply isAdjacentToOwned_spec in Hhit.
    pose proof (Tile_isAdjacent_true (tiles s) false x y) as Hflag.
    destruct hit, (Tile_isAdjacent (Some (tiles s)) false x y);
      try done.
    - apply Hflag. split; [done|]. by apply Hhit.
    - assert (false = true) as Hf; [|done].
      apply Hhit. by apply Hflag. }
  split; [done|]. split.
  - intros rnd s' Hbuy. apply buyTile_true in Hbuy
      as (tile0 & _ & _ & Htile0 & Hfree & Hadj & _).
    assert (tile0 = tile) as -> by congruence. rewrite Hfree.
    by apply Hagree.
  - intros Hg Hflag rnd. unfold buyTile. rewrite Htile. simpl.
    destruct (isOwned tile) eqn:Ho; [done|].
    destruct (isAdjacentToOwned_total (tiles s) x y Hg) as [hit Hhit].
    rewrite Hhit. simpl. rewrite (Hagree hit Hhit) in Hflag.
    by rewrite Hflag.
Qed.

End CallerFacts.

(** ** More on purchases *)

Section PurchaseFacts.
Context {num : Type} `{!Number num} `{!GameConfig num}.

(** X9: a tile is bought once.  After [buyTile(x, y)] returned true, every
    further [buyTile(x, y)] returns false and changes nothing. *)
Theorem buyTile_not_twice (s s' : GameState num) rnd x y :
  buyTile rnd x y s = Some (true, s') →
  ∀ rnd', buyTile rnd' x y s' = Some (false, s').
Proof.
  intros H rnd'. apply buyTile_true in H
    as (tile & randomBiome & newRates & Htile & _ & _ & _ & _ & _ & ->).
  unfold buyTile. simpl.
  by rewrite (tileAt_setTile_eq _ _ _ tile _ Htile).
Qed.

(** X10: a purchase is paid in gold only: every other holding is the one
    of the state before. *)
Theorem buyTile_spends_gold_only (s s' : GameState num) rnd x y r :
  buyTile rnd x y s = Some (true, s') → r ≠ gold →
  resources s' !! r = resources s !! r.
Proof.
  intros H Hr. apply buyTile_true in H
    as (tile & randomBiome & newRates & _ & _ & _ & _ & _ & _ & ->).
  simpl. by rewrite lookup_insert_ne.
Qed.

(** X11: a purchase opens its surroundings.  After [buyTile(x, y)] returned
    true for a cell inside the bounds, the adjacency test answers true at
    each of the four cells next to [(x, y)]. *)
Theorem buyTile_opens_neighbours (s s' : GameState num) rnd x y nx ny :
  buyTile rnd x y s = Some (true, s') → inBounds x y →
  (nx, ny) ∈ [(x - 1, y); (x + 1, y); (x, y - 1); (x, y + 1)] →
  ownedNeighbour (tiles s') nx ny ∧
  isAdjacentToOwned (tiles s') nx ny = Some true.
Proof.
  intros H Hin Hn. apply buyTile_true in H
    as (tile & randomBiome & newRates & Htile & _ & _ & _ & _ & Hrates & ->).
  simpl. set (t' := setTile (tiles s) x y _) in *.
  assert (ownedAt t' x y) as Hat.
  { split; [done|]. eexists. split; [by eapply tileAt_setTile_eq|done]. }
  assert (ownedNeighbour t' nx ny) as Hnb.
  { unfold ownedNeighbour.
    repeat (apply elem_of_cons in Hn as [[= -> ->]|Hn]);
      [| | | |by apply elem_of_nil in Hn].
    - right; left. by replace (x - 1 + 1) with x by lia.
    - left. by replace (x + 1 - 1) with x by lia.
    - right; right; right. by replace (y - 1 + 1) with y by lia.
    - right; right; left. by replace (y + 1 - 1) with y by lia. }
  split; [done|].
  apply calculateResourceRates_gridOk in Hrates.
  destruct (isAdjacentToOwned_total t' nx ny Hrates) as [hit Hhit].
  rewrite Hhit. f_equal. by apply (isAdjacentToOwned_spec _ _ _ _ Hhit).
Qed.

Lemma buyTile_total (s : GameState num) rnd x y :
  inBounds x y → gridOk (tiles s) = true →
  (rnd < length availableBiomes)%nat →
  is_Some (buyTile rnd x y s).
Proof.
  intros Hin Hg Hrnd.
  destruct (gridOk_tileAt _ _ _ Hg Hin) as [tile Htile].
  destruct (isAdjacentToOwned_total (tiles s) x y Hg) as [adjacent Hadj].
  unfold buyTile. rewrite Htile. simpl.
  destruct (isOwned tile); [by eexists|]. rewrite Hadj. simpl.
  destruct adjacent; simpl; [|by eexists].
  destruct (num_lt _ _); [by eexists|].
  destruct (lookup_lt_is_Some_2 _ _ Hrnd) as [randomBiome Hb].
  destruct (calculateResourceRates_total
              (setTile (tiles s) x y
                 (mkTile (pickBiome rnd) true None CostAbsent)))
    as [newRates ->]; [|by eexists].
  eapply gridOk_setTile; [done..|]. intros _. simpl.
  unfold pickBiome. rewrite Hb. simpl.
  apply BIOMES_get_elem, availableBiomes_elem.
  by eapply list_elem_of_lookup_2.
Qed.

Lemma upgradeCastle_total (s : GameState num) :
  gridOk (tiles s) = true → is_Some (upgradeCastle s).
Proof.
  intros Hg. unfold upgradeCastle.
  destruct (findCastle_total (tiles s) (seqZ 0 GRID_HEIGHT)) as [found Hf].
  { intros x y Hy%elem_of_seqZ Hx%elem_of_seqZ.
    apply gridOk_tileAt; [done|]. split; lia. }
  rewrite Hf. cbn [mbind option_bind].
  destruct found as [[[castle cx] cy]|]; [|by eexists].
  destruct (upgradeCost castle); try by eexists.
  destruct (level castle) as [lvl|]; [|by eexists].
  destruct (lvl =? 0); [by eexists|].
  destruct (maxLevel CASTLE_UPGRADE <=? lvl); [by eexists|].
  destruct (negb _); [by eexists|].
  destruct (findCastle_sound _ _ _ _ _ Hf)
    as (Hc & _ & Hx%elem_of_seqZ & Hy%elem_of_seqZ).
  match goal with
  | |- context [calculateResourceRates ?t'] =>
      destruct (calculateResourceRates_total t') as [newRates ->];
        [|by eexists]
  end.
  eapply gridOk_setTile; [done..|]. simpl. intros Ho.
  assert (inBounds cx cy) as Hin by (split; lia).
  destruct (cellOk_Some _ _ _ (gridOk_cell _ _ _ Hg Hin))
    as (tile & Htile & Hb).
  assert (tile = castle) as -> by congruence. by apply Hb.
Qed.

Lemma step_cases (s s' : GameState num) :
  step s s' →
  s' = s ∨ (∃ deltaTime, s' = tick deltaTime s) ∨
  (∃ rnd x y, buyTile rnd x y s = Some (true, s')) ∨
  upgradeCastle s = Some (true, s').
Proof.
  intros [rnd x y s0 ok s0' H|s0 ok s0' H|deltaTime s0].
  - destruct ok; [eauto 8|]. left. by eapply buyTile_false.
  - destruct ok; [eauto 8|]. left. by eapply upgradeCastle_false.
  - eauto.
Qed.

Lemma stored_rates_step (s s' : GameState num) :
  step s s' →
  calculateResourceRates (tiles s) = Some (resourceRates s) ∧
    resourceModifiers s = modifiers (resourceRates s) →
  calculateResourceRates (tiles s') = Some (resourceRates s') ∧
    resourceModifiers s' = modifiers (resourceRates s').
Proof.
  intros Hstep Hs.
  destruct (step_cases s s' Hstep) as [->|[[dt ->]|[(rnd & x & y & H)|H]]];
    [done|done| |].
  - apply buyTile_true in H
      as (tile & randomBiome & newRates & _ & _ & _ & _ & _ & Hr & ->).
    done.
  - apply upgradeCastle_true in H
      as (castle & cx & cy & lvl & cost & newRates & _ & _ & _ & _ & _ & _
          & Hr & ->).
    done.
Qed.

Lemma stored_rates_reachable (s : GameState num) :
  reachable s →
  calculateResourceRates (tiles s) = Some (resourceRates s) ∧
  resourceModifiers s = modifiers (resourceRates s).
Proof.
  induction 1 as [s Hs|s s' _ IH Hs].
  - by apply initialState_inv in Hs as (grid & rr & _ & Hrr & ->).
  - by apply (stored_rates_step s).
Qed.

(** X12: the store never throws on a state it can reach: [upgradeCastle]
    returns, and [buyTile] returns for every cell inside the bounds and
    every random index inside the list of available biomes. *)
Theorem reachable_never_throws (s : GameState num) :
  reachable s →
  is_Some (upgradeCastle s) ∧
  ∀ rnd x y, inBounds x y → (rnd < length availableBiomes)%nat →
    is_Some (buyTile rnd x y s).
Proof.
  intros [Hrr _]%stored_rates_reachable.
  apply calculateResourceRates_gridOk in Hrr.
  split; [by apply upgradeCastle_total|].
  intros rnd x y Hin Hrnd. by apply buyTile_total.
Qed.

End PurchaseFacts.

(** ** What every reachable state keeps *)

Section ReachableFacts.
Context {num : Type} `{!Number num} `{!GameConfig num}.

(** X13: the stored rates are never stale.  In every reachable state the
    stored [resourceRates] are what the calculator returns on the stored
    grid, the stored [resourceModifiers] are the modifiers of those rates,
    and the calculator can process the grid. *)
Theorem rates_never_stale (s : GameState num) :
  reachable s →
  calculateResourceRates (tiles s) = Some (resourceRates s) ∧
  resourceModifiers s = modifiers (resourceRates s) ∧
  gridOk (tiles s) = true.
Proof.
  intros [Hrr Hm]%stored_rates_reachable.
  do 2 (split; [done|]). by eapply calculateResourceRates_gridOk.
Qed.

Lemma step_shape (s s' : GameState num) :
  step s s' → length <$> tiles s' = length <$> tiles s.
Proof.
  intros Hstep.
  destruct (step_cases s s' Hstep) as [->|[[dt ->]|[(rnd & x & y & H)|H]]];
    [done|done| |].
  - apply buyTile_true in H
      as (tile & randomBiome & newRates & _ & _ & _ & _ & _ & _ & ->).
    apply setTile_shape.
  - apply upgradeCastle_true in H
      as (castle & cx & cy & lvl & cost & newRates & _ & _ & _ & _ & _ & _
          & _ & ->).
    apply setTile_shape.
Qed.

Lemma reachable_shape (s : GameState num) :
  reachable s →
  ∃ grid, createInitialGrid = Some grid ∧
    length <$> tiles s = length <$> grid.
Proof.
  induction 1 as [s Hs|s s' _ (grid & Hgrid & IH) Hs].
  - apply initialState_inv in Hs as (grid & rr & Hgrid & _ & ->). eauto.
  - exists grid. split; [done|]. by rewrite (step_shape s s').
Qed.

(** X14: the dimensions of the grid are those of its creation for the whole
    game: every reachable state (of a grid with a column) has [GRID_HEIGHT]
    rows of [GRID_SIZE] tiles. *)
Theorem grid_dimensions_constant (s : GameState num) :
  reachable s → 0 < GRID_SIZE →
  length (tiles s) = Z.to_nat GRID_HEIGHT ∧
  ∀ row, row ∈ tiles s → length row = Z.to_nat GRID_SIZE.
Proof.
  intros (grid & Hgrid & Hshape)%reachable_shape Hw.
  destruct (createInitialGrid_lengths grid Hgrid Hw) as [Hlen Hrows].
  split.
  - rewrite <- Hlen, <- (length_fmap length (tiles s)), Hshape.
    apply length_fmap.
  - intros row Hrow.
    assert (length row ∈ length <$> grid) as Hin.
    { rewrite <- Hshape. apply list_elem_of_fmap. eauto. }
    apply list_elem_of_fmap in Hin as (row' & -> & Hrow'). by apply Hrows.
Qed.

Lemma castleLevel_init (s : GameState num) :
  initialState = Some s → castleLevelInvariant s.
Proof.
  intros (grid & rr & Hgrid & _ & ->)%initialState_inv.
  destruct (createInitialGrid_tiles grid Hgrid) as [Hcentre _].
  exists initialCastle, 1. simpl. do 2 (split; [done|]).
  split; [lia|]. split; [by left|].
  unfold catalogCost, index. simpl.
  change (Z.to_nat (1 - 1)) with 0%nat.
  destruct (upgradeCosts CASTLE_UPGRADE !! 0%nat); simpl; auto.
Qed.

Lemma castleLevel_step (s s' : GameState num) :
  step s s' → castleInvariant s → castleLevelInvariant s →
  castleLevelInvariant s'.
Proof.
  intros Hstep (centre & Hcentre & Hcb & Hco & Huniq)
    (castle0 & lvl0 & Hc0 & Hl0 & Hge & Hle & Hcat).
  assert (castle0 = centre) as -> by congruence.
  assert (castleLevelInvariant s) as Hinv by (exists centre, lvl0; eauto 6).
  destruct (step_cases s s' Hstep) as [->|[[dt ->]|[(rnd & x & y & H)|H]]];
    [done|done| |].
  - apply buyTile_true in H
      as (old & randomBiome & newRates & Hold & Hfree & _ & _ & _ & _ & ->).
    pose proof Hold as (Hx & Hy & _)%tileAt_Some.
    exists centre, lvl0. simpl. rewrite tileAt_setTile_ne; [done..|].
    intros [= <- <-]. congruence.
  - apply upgradeCastle_true in H
      as (castle & cx & cy & lvl & cost & newRates & Hfound & _ & Hlvl
          & _ & Hmax & _ & _ & ->).
    destruct (findCastle_sound _ _ _ _ _ Hfound) as (Hc & Hb & _ & _).
    destruct (Huniq cx cy castle Hc Hb) as [-> ->].
    assert (castle = centre) as -> by congruence.
    assert (lvl = lvl0) as -> by congruence.
    eexists _, (lvl0 + 1). simpl.
    split; [by eapply tileAt_setTile_eq|]. simpl.
    split; [done|]. split; [lia|]. split; [right; lia|].
    unfold nextUpgradeCost, catalogCost.
    replace (lvl0 + 1 - 1) with lvl0 by lia.
    destruct (index (upgradeCosts CASTLE_UPGRADE) lvl0); auto.
Qed.

(** X15: in every reachable state the castle tile has a level, at least 1
    and at most [maxLevel] (a configured maximum below 1 leaves it at 1),
    and its stored upgrade cost is the catalog's cost for that level, or
    no cost at all when the catalog has none for it. *)
Theorem castle_level_and_cost (s : GameState num) :
  reachable s → castleLevelInvariant s.
Proof.
  intros Hs.
  assert (castleInvariant s ∧ castleLevelInvariant s) as [_ ?]; [|done].
  induction Hs as [s Hs|s s' _ [IHc IHl] Hs].
  - split; [by apply castleInvariant_init|by apply castleLevel_init].
  - split; [by apply (castleInvariant_step s)|by apply (castleLevel_step s)].
Qed.

End ReachableFacts.

(** ** Which tiles the rates depend on *)

Section RateDependence.
Context {num : Type} `{!Number num} `{!GameConfig num}.
Implicit Types (t : list (list (Tile num))) (b m : gmap resource num).

(** The castle scan sees a tile only through "owned castle or not", and
    reads the tile itself only when it is one. *)
Lemma castleRow_alike t t' y xs b :
  (∀ x, x ∈ xs →
     option_Forall2
       (λ a a', a = a' ∨
          (isOwned a && String.eqb (biome a) "castle" = false ∧
           isOwned a' && String.eqb (biome a') "castle" = false))
       (tileAt t x y) (tileAt t' x y)) →
  castleRow t y xs b = castleRow t' y xs b.
Proof.
  induction xs as [|x xs IH]; intros Halike; simpl; [done|].
  assert (castleRow t y xs b = castleRow t' y xs b) as IH'.
  { apply IH. intros x' Hx'. apply Halike. by right. }
  destruct (Halike x) as [a a' [->|[Ha Ha']]|]; [by left| | |done]; simpl.
  - by rewrite IH'.
  - by rewrite Ha, Ha'.
Qed.

Lemma castleScan_alike t t' ys b :
  (∀ x y, y ∈ ys → x ∈ seqZ 0 GRID_SIZE →
     option_Forall2
       (λ a a', a = a' ∨
          (isOwned a && String.eqb (biome a) "castle" = false ∧
           isOwned a' && String.eqb (biome a') "castle" = false))
       (tileAt t x y) (tileAt t' x y)) →
  castleScan t ys b = castleScan t' ys b.
Proof.
  revert b. induction ys as [|y ys IH]; intros b Halike; simpl; [done|].
  rewrite (castleRow_alike t t').
  - destruct (castleRow t' y (seqZ 0 GRID_SIZE) b) as [b'|]; [|done].
    simpl. apply IH. intros x y' Hy'. apply Halike. by right.
  - intros x Hx. apply Halike; [by left|done].
Qed.

(** The modifier scan, one resource at a time: a tile counts for [r] only
    if it is owned and its biome has a factor for [r]. *)
Lemma applyModifiers_key (a : Tile num) m m' m1 m1' r :
  applyModifiers a m = Some m1 → applyModifiers a m' = Some m1' →
  m !! r = m' !! r → m1 !! r = m1' !! r.
Proof.
  unfold applyModifiers. destruct (isOwned a); [|congruence].
  destruct (BIOMES_get (biome a)) as [info|]; [|done]. simpl.
  intros [= <-] [= <-] Hr. rewrite !forEach_entry_lookup.
  destruct (resourceModifiers_of info !! r); congruence.
Qed.

Lemma modifierRow_key t t' y xs m m' m1 m1' r :
  (∀ x, x ∈ xs →
     option_Forall2
       (λ a a', a = a' ∨
          ((∀ n n1, applyModifiers a n = Some n1 → n1 !! r = n !! r) ∧
           (∀ n n1, applyModifiers a' n = Some n1 → n1 !! r = n !! r)))
       (tileAt t x y) (tileAt t' x y)) →
  modifierRow t y xs m = Some m1 → modifierRow t' y xs m' = Some m1' →
  m !! r = m' !! r → m1 !! r = m1' !! r.
Proof.
  revert m m'. induction xs as [|x xs IH]; intros m m' Halike; simpl.
  { by intros [= <-] [= <-]. }
  intros H H' Hr.
  apply bind_Some in H as (a & Ha & H).
  apply bind_Some in H as (n & Hn & H).
  apply bind_Some in H' as (a' & Ha' & H').
  apply bind_Some in H' as (n' & Hn' & H').
  assert (n !! r = n' !! r) as Hnr.
  { pose proof (Halike x ltac:(by left)) as Hx.
    rewrite Ha, Ha' in Hx. inversion Hx as [? ? [->|[Hk Hk']]|]; subst.
    - by eapply applyModifiers_key.
    - by rewrite (Hk _ _ Hn), (Hk' _ _ Hn'). }
  eapply (IH n n'); [|done..]. intros x' Hx'. apply Halike. by right.
Qed.

Lemma modifierScan_key t t' ys m m' m1 m1' r :
  (∀ x y, y ∈ ys → x ∈ seqZ 0 GRID_SIZE →
     option_Forall2
       (λ a a', a = a' ∨
          ((∀ n n1, applyModifiers a n = Some n1 → n1 !! r = n !! r) ∧
           (∀ n n1, applyModifiers a' n = Some n1 → n1 !! r = n !! r)))
       (tileAt t x y) (tileAt t' x y)) →
  modifierScan t ys m = Some m1 → modifierScan t' ys m' = Some m1' →
  m !! r = m' !! r → m1 !! r = m1' !! r.
Proof.
  revert m m'. induction ys as [|y ys IH]; intros m m' Halike; simpl.
  { by intros [= <-] [= <-]. }
  intros H H' Hr.
  apply bind_Some in H as (n & Hn & H).
  apply bind_Some in H' as (n' & Hn' & H').
  eapply (IH n n'); [|done..|].
  - intros x y' Hy'. apply Halike. by right.
  - eapply (modifierRow_key t t'); [|done..].
    intros x Hx. apply Halike; [by left|done].
Qed.

Lemma modifierRow_alike t t' y xs m :
  (∀ x, x ∈ xs →
     option_Forall2 sameForRates (tileAt t x y) (tileAt t' x y)) →
  modifierRow t y xs m = modifierRow t' y xs m.
Proof.
  revert m. induction xs as [|x xs IH]; intros m Halike; simpl; [done|].
  assert (∀ n, modifierRow t y xs n = modifierRow t' y xs n) as IH'.
  { intros n. apply IH. intros x' Hx'. apply Halike. by right. }
  destruct (Halike x) as [a a' [->|[Ha Ha']]|]; [by left| | |done]; simpl.
  - destruct (applyModifiers a' m); simpl; [apply IH'|done].
  - unfold applyModifiers. rewrite Ha, Ha'. simpl. apply IH'.
Qed.

Lemma modifierScan_alike t t' ys m :
  (∀ x y, y ∈ ys → x ∈ seqZ 0 GRID_SIZE →
     option_Forall2 sameForRates (tileAt t x y) (tileAt t' x y)) →
  modifierScan t ys m = modifierScan t' ys m.
Proof.
  revert m. induction ys as [|y ys IH]; intros m Halike; simpl; [done|].
  rewrite (modifierRow_alike t t').
  - destruct (modifierRow t' y (seqZ 0 GRID_SIZE) m) as [m'|]; [|done].
    simpl. apply IH. intros x y' Hy'. apply Halike. by right.
  - intros x Hx. apply Halike; [by left|done].
Qed.

(** X16: the rates depend on the owned tiles only.  Two grids that, inside
    the bounds, differ only in tiles that are not owned get the same answer
    from the calculator (the same rates, or the same failure). *)
Theorem rates_ignore_unowned t t' :
  (∀ x y, inBounds x y →
     option_Forall2 sameForRates (tileAt t x y) (tileAt t' x y)) →
  calculateResourceRates t = calculateResourceRates t'.
Proof.
  intros Halike. unfold calculateResourceRates.
  assert (∀ x y, y ∈ seqZ 0 GRID_HEIGHT → x ∈ seqZ 0 GRID_SIZE →
            option_Forall2 sameForRates (tileAt t x y) (tileAt t' x y))
    as Hin.
  { intros x y Hy%elem_of_seqZ Hx%elem_of_seqZ. apply Halike. split; lia. }
  rewrite (castleScan_alike t t'), (modifierScan_alike t t'); [done..|].
  intros x y Hy Hx.
  destruct (Hin x y Hy Hx) as [a a' [->|[Ha Ha']]|]; constructor; [by left|].
  right. by rewrite Ha, Ha'.
Qed.

Lemma calculateResourceRates_inv t rr :
  calculateResourceRates t = Some rr →
  castleScan t (seqZ 0 GRID_HEIGHT) BASE_GENERATION_RATES = Some (base rr) ∧
  modifierScan t (seqZ 0 GRID_HEIGHT) initialModifiers
    = Some (modifiers rr).
Proof.
  unfold calculateResourceRates. intros H.
  apply bind_Some in H as (b & Hb & H). apply bind_Some in H as (m & Hm & H).
  by injection H as <-.
Qed.

(** X17: a purchase moves only the rates its biome has a factor for.  With
    [rr] the rates of the grid before, the purchase leaves the base rates
    as they are, and for every resource without a factor in the biome
    drawn, the modifier and the total as well. *)
Theorem purchase_rate_locality (s s' : GameState num) rnd x y rr info :
  buyTile rnd x y s = Some (true, s') →
  calculateResourceRates (tiles s) = Some rr →
  BIOMES_get (pickBiome rnd) = Some info →
  base (resourceRates s') = base rr ∧
  ∀ r, resourceModifiers_of info !! r = None →
    modifiers (resourceRates s') !! r = modifiers rr !! r ∧
    total (resourceRates s') !! r = total rr !! r.
Proof.
  intros H Hrr Hinfo. apply buyTile_true in H
    as (old & randomBiome & newRates & Hold & Hfree & _ & _ & -> & Hnew & ->).
  simpl. set (new := mkTile (pickBiome rnd) true None CostAbsent) in *.
  pose proof Hold as (Hx & Hy & _)%tileAt_Some.
  destruct (calculateResourceRates_inv _ _ Hrr) as [Hb Hm].
  destruct (calculateResourceRates_inv _ _ Hnew) as [Hb' Hm'].
  assert (base newRates = base rr) as Hbase.
  { rewrite (castleScan_alike _ (tiles s)) in Hb'; [congruence|].
    intros x' y' _ _.
    destruct (decide ((x', y') = (x, y))) as [[= -> ->]|Hne].
    - rewrite (tileAt_setTile_eq _ _ _ old new Hold), Hold. constructor.
      right. rewrite Hfree. simpl. split; [|done].
      apply String.eqb_neq, pickBiome_not_castle.
    - rewrite tileAt_setTile_ne by done.
      destruct (tileAt (tiles s) x' y'); constructor. by left. }
  split; [done|]. intros r Hr.
  assert (modifiers newRates !! r = modifiers rr !! r) as Hmod.
  { eapply (modifierScan_key _ (tiles s)); [|done..].
    intros x' y' _ _.
    destruct (decide ((x', y') = (x, y))) as [[= -> ->]|Hne].
    - rewrite (tileAt_setTile_eq _ _ _ old new Hold), Hold. constructor.
      right. split; intros n n1; unfold applyModifiers; simpl.
      + rewrite Hinfo. simpl. intros [= <-].
        by rewrite forEach_entry_lookup, Hr.
      + rewrite Hfree. by intros [= <-].
    - rewrite tileAt_setTile_ne by done.
      destruct (tileAt (tiles s) x' y'); constructor. by left. }
  split; [done|].
  rewrite (calculateResourceRates_total_lookup _ _ r Hnew),
    (calculateResourceRates_total_lookup _ _ r Hrr).
  by rewrite Hbase, Hmod.
Qed.

End RateDependence.

(** ** Refusals, a missing holding, and the number of owned tiles *)

Section EdgeFacts.
Context {num : Type} `{!Number num} `{!GameConfig num}.
Implicit Types (t : list (list (Tile num))) (s : GameState num).

Lemma findCastle_absent t :
  gridOk t = true →
  (∀ x y tile, inBounds x y → tileAt t x y = Some tile →
     biome tile ≠ "castle") →
  findCastle t (seqZ 0 GRID_HEIGHT) = Some None.
Proof.
  intros Hg Hnone.
  destruct (findCastle_total t (seqZ 0 GRID_HEIGHT)) as [found Hf].
  { intros x y Hy%elem_of_seqZ Hx%elem_of_seqZ.
    apply gridOk_tileAt; [done|]. split; lia. }
  rewrite Hf. destruct found as [[[tile x] y]|]; [|done].
  destruct (findCastle_sound _ _ _ _ _ Hf)
    as (Htile & Hb & Hx%elem_of_seqZ & Hy%elem_of_seqZ).
  destruct (Hnone x y tile); [split; lia|done..].
Qed.

(** X18: on a grid the calculator can process, [upgradeCastle()] returns
    false and changes nothing when no cell inside the bounds holds a
    castle, and when the castle has no stored cost (never set, or null
    after the last upgrade) or no level (none, or 0). *)
Theorem upgradeCastle_refuses s :
  gridOk (tiles s) = true →
  ((∀ x y tile, inBounds x y → tileAt (tiles s) x y = Some tile →
      biome tile ≠ "castle") →
   upgradeCastle s = Some (false, s)) ∧
  (∀ castle cx cy,
     inBounds cx cy →
     tileAt (tiles s) cx cy = Some castle → biome castle = "castle" →
     (∀ x y tile, inBounds x y → tileAt (tiles s) x y = Some tile →
        biome tile = "castle" → x = cx ∧ y = cy) →
     upgradeCost castle = CostAbsent ∨ upgradeCost castle = CostNull ∨
     level castle = None ∨ level castle = Some 0 →
     upgradeCastle s = Some (false, s)).
Proof.
  intros Hg. split.
  - intros Hnone. unfold upgradeCastle.
    by rewrite (findCastle_absent _ Hg Hnone).
  - intros castle cx cy Hin Hc Hb Huniq Hbad. unfold upgradeCastle.
    rewrite (findCastle_unique _ castle cx cy Hg Hin Hc Hb Huniq).
    cbn [mbind option_bind].
    destruct Hbad as [->|[->|[Hl|Hl]]]; [done|done| |].
    + rewrite Hl. by destruct (upgradeCost castle).
    + rewrite Hl. by destruct (upgradeCost castle).
Qed.

(** X19: a state without a gold entry is not refused by the price check of
    [buyTile]: the check is [gold < cost], the missing entry reads as [NaN]
    and, with [NaN < cost] false, the purchase of an unowned tile with an
    owned neighbour goes through and leaves [NaN - cost] as gold. *)
Theorem buyTile_without_gold s rnd x y tile :
  inBounds x y → gridOk (tiles s) = true →
  (rnd < length availableBiomes)%nat →
  tileAt (tiles s) x y = Some tile → isOwned tile = false →
  ownedNeighbour (tiles s) x y →
  resources s !! gold = None →
  num_lt NaN TILE_PURCHASE_COST = false →
  ∃ s', buyTile rnd x y s = Some (true, s') ∧
        resources s' !! gold = Some (num_sub NaN TILE_PURCHASE_COST).
Proof.
  intros Hin Hg Hrnd Htile Hfree Hn Hgold Hnan.
  destruct (buyTile_total s rnd x y Hin Hg Hrnd) as [[ok s'] Hbuy].
  exists s'. destruct ok.
  - split; [done|]. apply buyTile_true in Hbuy
      as (? & ? & ? & _ & _ & _ & _ & _ & _ & ->).
    simpl. by rewrite lookup_insert_eq, Hgold.
  - exfalso. revert Hbuy. unfold buyTile. rewrite Htile. simpl.
    rewrite Hfree.
    destruct (isAdjacentToOwned_total (tiles s) x y Hg) as [hit Hhit].
    rewrite Hhit. simpl.
    assert (hit = true) as -> by (by apply (isAdjacentToOwned_spec _ _ _ _ Hhit)).
    simpl. rewrite Hgold. simpl. rewrite Hnan.
    destruct (calculateResourceRates _); simpl; congruence.
Qed.

Lemma row_count_insert (row : list (Tile num)) i old v :
  row !! i = Some old →
  (length (filter (λ tile, isOwned tile = true) (<[i:=v]> row))
   + (if isOwned old then 1 else 0)
   = length (filter (λ tile, isOwned tile = true) row)
     + (if isOwned v then 1 else 0))%nat.
Proof.
  revert i. induction row as [|a row IH]; intros [|i] Hi; try done.
  - injection Hi as ->. simpl. rewrite !filter_cons.
    destruct (isOwned old) eqn:Ho, (isOwned v) eqn:Hv;
      repeat case_decide; try congruence; simpl; lia.
  - simpl in *. rewrite !filter_cons. specialize (IH i Hi).
    case_decide; simpl; lia.
Qed.

Lemma countOwned_setTile t x y old v :
  tileAt t x y = Some old →
  (countOwned (setTile t x y v) + (if isOwned old then 1 else 0)
   = countOwned t + (if isOwned v then 1 else 0))%nat.
Proof.
  intros (_ & _ & row & Hrow & Hold)%tileAt_Some.
  unfold countOwned, setTile. revert Hrow.
  generalize (Z.to_nat y). intros j. revert j.
  induction t as [|row0 t IH]; intros [|j] Hrow; try done.
  - injection Hrow as ->. simpl. rewrite !filter_app, !length_app.
    pose proof (row_count_insert row (Z.to_nat x) old v Hold). lia.
  - simpl in *. rewrite !filter_app, !length_app.
    specialize (IH j Hrow). unfold alter in IH. lia.
Qed.

(** X20: a purchase adds exactly one owned tile to the grid; an upgrade
    and a tick leave the number of owned tiles as it is. *)
Theorem owned_count s :
  (∀ rnd x y s', buyTile rnd x y s = Some (true, s') →
     countOwned (tiles s') = S (countOwned (tiles s))) ∧
  (∀ s', upgradeCastle s = Some (true, s') →
     countOwned (tiles s') = countOwned (tiles s)) ∧
  (∀ deltaTime, countOwned (tiles (tick deltaTime s)) = countOwned (tiles s)).
Proof.
  split; [|split; [|done]].
  - intros rnd x y s' H. apply buyTile_true in H
      as (old & randomBiome & newRates & Hold & Hfree & _ & _ & _ & _ & ->).
    simpl. pose proof (countOwned_setTile (tiles s) x y old
      (mkTile randomBiome true None CostAbsent) Hold) as Hc.
    rewrite Hfree in Hc. simpl in Hc. lia.
  - intros s' H. apply upgradeCastle_true in H
      as (castle & cx & cy & lvl & cost & newRates & Hfound & _ & _ & _ & _
          & _ & _ & ->).
    destruct (findCastle_sound _ _ _ _ _ Hfound) as (Hc & _ & _ & _).
    simpl. pose proof (countOwned_setTile (tiles s) cx cy castle
      (mkTile (biome castle) (isOwned castle) (Some (lvl + 1))
         (nextUpgradeCost lvl)) Hc) as Hcount.
    simpl in Hcount. lia.
Qed.

End EdgeFacts.

(** ** Clicks that reach the store *)

Section ClickFacts.
Context {num : Type} `{!Number num} `{!GameConfig num}.

(** X24: a click reaches [buyTile] only on a tile that is not owned and
    that the component shows as adjacent, outside the biome selection.
    When the props mirror the store (the grid of the state, the flag of the
    tile) such a call passes the ownership and adjacency checks of
    [buyTile]: on a grid the calculator can process and with a random index
    inside the available biomes it returns, and it returns true exactly
    when gold is not below the purchase cost. *)
Theorem click_reaches_buyTile (s : GameState num) rnd x y tile
    selecting hasChest levelProp hasBuilding canAfford costPositive :
  tileAt (tiles s) x y = Some tile →
  handleClick selecting (isOwned tile) hasChest (biome tile) levelProp
    hasBuilding (Tile_isAdjacent (Some (tiles s)) (isOwned tile) x y)
    canAfford costPositive = ClickBuyTile →
  selecting = false ∧ isOwned tile = false ∧ canAfford = true ∧
  ownedNeighbour (tiles s) x y ∧
  (inBounds x y → gridOk (tiles s) = true →
   (rnd < length availableBiomes)%nat →
   ∃ ok s', buyTile rnd x y s = Some (ok, s') ∧
     (ok = true ↔
      num_lt (to_num (resources s !! gold)) TILE_PURCHASE_COST = false)).
Proof.
  intros Htile Hclick.
  destruct (Tile_isAdjacent (Some (tiles s)) (isOwned tile) x y) eqn:Hadj;
    unfold handleClick in Hclick;
    destruct selecting; try done;
    destruct (isOwned tile) eqn:Ho; cbn [andb negb] in Hclick.
  1,3: destruct hasChest; [done|];
       destruct (String.eqb _ "castle"); [done|];
       by destruct (_ && negb hasBuilding).
  2: done.
  destruct canAfford; [|by destruct costPositive].
  apply Tile_isAdjacent_true in Hadj as [_ Hn].
  do 4 (split; [done|]).
  intros Hin Hg Hrnd.
  destruct (buyTile_total s rnd x y Hin Hg Hrnd) as [[ok s'] Hbuy].
  exists ok, s'. split; [done|]. destruct ok.
  - apply buyTile_true in Hbuy as (? & ? & ? & _ & _ & _ & Hlt & _).
    by rewrite Hlt.
  - split; [done|]. intros Hlt. exfalso. revert Hbuy.
    unfold buyTile. rewrite Htile. simpl. rewrite Ho.
    destruct (isAdjacentToOwned_total (tiles s) x y Hg) as [hit Hhit].
    rewrite Hhit. simpl.
    assert (hit = true) as ->
      by (by apply (isAdjacentToOwned_spec _ _ _ _ Hhit)).
    simpl. rewrite Hlt.
    destruct (calculateResourceRates _); simpl; congruence.
Qed.

End ClickFacts.

(** ** Doubles: rates that are not numbers *)

Section NaNFacts.
Context `{!GameConfig float}.
Implicit Types (t : list (list (Tile float))) (s : GameState float).

(** A modifier that reads as [NaN] stays so under the modifier loop: the
    loop only multiplies. *)
Lemma applyModifiers_nan (tile : Tile float) m m1 r :
  applyModifiers tile m = Some m1 →
  to_num (m !! r) = nan → to_num (m1 !! r) = nan.
Proof.
  unfold applyModifiers. destruct (isOwned tile); [|congruence].
  destruct (BIOMES_get (biome tile)) as [info|]; [|done]. simpl.
  intros [= <-] Hr. rewrite forEach_entry_lookup.
  destruct (resourceModifiers_of info !! r) as [modifier|]; [|done].
  simpl. rewrite Hr. apply Float64Facts.nan_mul.
Qed.

Lemma modifierRow_nan t y xs m m1 r :
  modifierRow t y xs m = Some m1 →
  to_num (m !! r) = nan → to_num (m1 !! r) = nan.
Proof.
  revert m. induction xs as [|x xs IH]; intros m; simpl.
  { by intros [= <-]. }
  intros H Hr. apply bind_Some in H as (a & _ & H).
  apply bind_Some in H as (n & Hn & H).
  apply (IH n H). by eapply applyModifiers_nan.
Qed.

Lemma modifierScan_nan t ys m m1 r :
  modifierScan t ys m = Some m1 →
  to_num (m !! r) = nan → to_num (m1 !! r) = nan.
Proof.
  revert m. induction ys as [|y ys IH]; intros m; simpl.
  { by intros [= <-]. }
  intros H Hr. apply bind_Some in H as (n & Hn & H).
  apply (IH n H). by eapply modifierRow_nan.
Qed.

Lemma total_xp_nan t rr :
  calculateResourceRates t = Some rr →
  is_Some (BASE_GENERATION_RATES !! xp) →
  total rr !! xp = Some nan.
Proof.
  intros Hrr [b Hb].
  rewrite (calculateResourceRates_total_lookup t rr xp Hrr), Hb. f_equal.
  apply calculateResourceRates_inv in Hrr as [_ Hm].
  rewrite (modifierScan_nan _ _ _ _ xp Hm); [|done].
  apply Float64Facts.mul_nan.
Qed.

Lemma tick_nan_rate s r deltaTime :
  total (resourceRates s) !! r = Some nan →
  resources (tick deltaTime s) !! r = Some nan.
Proof.
  intros Hr. rewrite tick_resources_lookup, Hr. f_equal.
  change ((to_num (resources s !! r) + nan * (deltaTime / lit 1000))%float
          = nan).
  rewrite Float64Facts.nan_mul. apply Float64Facts.add_nan.
Qed.

(** X25: a stored rate that is not a number spoils the holding.  A resource
    whose stored rate is [NaN] holds [NaN] after every [tick], whatever the
    elapsed time; a resource whose stored rate is [NaN] or an infinity
    holds [NaN] after [tick(0)]. *)
Theorem tick_nonfinite_rate s r rate :
  total (resourceRates s) !! r = Some rate →
  (rate = nan → ∀ deltaTime, resources (tick deltaTime s) !! r = Some nan) ∧
  (is_finite rate = false → resources (tick (lit 0) s) !! r = Some nan).
Proof.
  intros Hr. split.
  - intros -> deltaTime. by apply tick_nan_rate.
  - intros Hfin. rewrite tick_resources_lookup, Hr. f_equal.
    by apply Float64Facts.rate_no_time_nan.
Qed.

(** X26: the rate of xp is never a number.  The modifiers of the rate
    calculator start from a literal that names gold, wood, stone, coal and
    food; with an xp entry in the global base rates, [total.xp] is
    [base.xp * undefined], which is [NaN], on every grid.  So every state
    the store reaches stores [NaN] as the rate of xp, and holds [NaN] xp
    after every [tick]. *)
Theorem xp_rate_is_NaN :
  is_Some (BASE_GENERATION_RATES !! xp) →
  (∀ t rr, calculateResourceRates t = Some rr →
     total rr !! xp = Some nan) ∧
  (∀ s, reachable s →
     total (resourceRates s) !! xp = Some nan ∧
     ∀ deltaTime, resources (tick deltaTime s) !! xp = Some nan).
Proof.
  intros Hxp. split.
  - intros t rr Hrr. by eapply total_xp_nan.
  - intros s [Hrr _]%stored_rates_reachable.
    pose proof (total_xp_nan _ _ Hrr Hxp) as Hnan.
    split; [done|]. intros deltaTime. by apply tick_nan_rate.
Qed.

End NaNFacts.

(** ** The further properties on the small configurations *)

(** The cells of the 3 x 3 grid, one case each. *)
Ltac demo_cells x y Hin :=
  apply (proj1 (DemoFacts.inBounds_demo _ _)) in Hin;
  let Hx := fresh "Hx" in
  let Hy := fresh "Hy" in
  assert (x = 0 ∨ x = 1 ∨ x = 2) as Hx by lia;
  assert (y = 0 ∨ y = 1 ∨ y = 2) as Hy by lia;
  destruct Hx as [->|[->| ->]], Hy as [->|[->| ->]].

(** The 3 x 3 grid is built; the grid without a row and the grid of
    [2^32] columns are not. *)
Lemma createInitialGrid_shape_witness :
  (∃ grid : list (list (Tile float)),
     createInitialGrid = Some grid ∧ length grid = 3%nat ∧
     tileAt grid 0 0 = Some emptyTile) ∧
  @createInitialGrid float Demo.flatConfig = None ∧
  @createInitialGrid float Demo.wideConfig = None.
Proof.
  split; [|split].
  - destruct (@createInitialGrid_shape float Demo.config) as [Hgrid _].
    destruct Hgrid as (grid & Hgrid & Hlen & _ & _ & Hrest);
      [split; [reflexivity|vm_compute; discriminate]..|].
    exists grid. split; [done|]. split; [exact Hlen|].
    apply Hrest; [|intros [=]]. apply DemoFacts.inBounds_demo. lia.
  - apply (@createInitialGrid_shape float Demo.flatConfig).
    left. vm_compute. discriminate.
  - apply (@createInitialGrid_shape float Demo.wideConfig).
    do 3 right. reflexivity.
Defined.

(** The calculator returns on the grid of the bought state. *)
Lemma calculateResourceRates_returns_iff_witness :
  is_Some (calculateResourceRates (tiles Demo.bought)).
Proof.
  apply calculateResourceRates_returns_iff. vm_compute. reflexivity.
Defined.

(** The store of the small configuration is created. *)
Lemma initialState_returns_iff_witness :
  is_Some (@initialState float _ Demo.config).
Proof.
  apply initialState_returns_iff.
  split; [split; [reflexivity|vm_compute; discriminate]|].
  split; [split; vm_compute; discriminate|].
  intros _. vm_compute. by eexists.
Defined.

(** The rates of the fresh state: the castle adds 1 gold to the 0.5 of the
    global base rate, and the modifiers are 1. *)
Lemma fresh_rates_witness :
  base (resourceRates Demo.start) !! gold = Some 1.5%float ∧
  modifiers (resourceRates Demo.start) !! wood = Some 1%float ∧
  resources Demo.start = Demo.bundle 250 40 0 0 0 0.
Proof.
  destruct (fresh_rates Demo.start (mkBiome ∅) DemoFacts.start_initial)
    as (Hbase & Hmod & Hres & _); [reflexivity|vm_compute; reflexivity|].
  split; [exact (Hbase gold)|]. split; [exact (Hmod wood)|exact Hres].
Defined.

(** In the fresh state the cell left of the castle has an owned neighbour
    and the corner has none. *)
Lemma fresh_frontier_witness :
  ownedNeighbour (tiles Demo.start) 0 1 ∧
  ¬ ownedNeighbour (tiles Demo.start) 0 0.
Proof.
  split.
  - apply (fresh_frontier Demo.start 0 1 DemoFacts.start_initial);
      reflexivity.
  - intros Hn.
    apply (fresh_frontier Demo.start 0 0 DemoFacts.start_initial) in Hn;
      [discriminate Hn|reflexivity].
Defined.

(** With 250 gold and 40 wood, 60 gold and 10 wood are affordable, hence 60
    gold alone is. *)
Lemma canAffordCost_shapes_witness :
  canAffordCost (Demo.bundle 250 40 0 0 0 0)
    (inr (<[gold := 60%float]> ∅)) = true.
Proof.
  destruct (canAffordCost_shapes (Demo.bundle 250 40 0 0 0 0))
    as (_ & _ & Hpart).
  apply (Hpart _ (<[gold := 60%float]> (<[wood := 10%float]> ∅))).
  - apply map_subseteq_spec. intros [] amount; vm_compute; congruence.
  - vm_compute. reflexivity.
Defined.

(** The component shows the cell left of the castle as adjacent. *)
Lemma Tile_isAdjacent_spec_witness :
  Tile_isAdjacent (Some (tiles Demo.start)) false 0 1 = true.
Proof.
  apply Tile_isAdjacent_spec. split; [done|].
  exists (tiles Demo.start). split; [done|].
  right. left. split; [apply DemoFacts.inBounds_demo; lia|].
  eexists. split; vm_compute; reflexivity.
Defined.

(** Component and store on the fresh state: the cell left of the castle
    is adjacent for both, the corner is refused. *)
Lemma Tile_isAdjacent_agrees_witness :
  Tile_isAdjacent (Some (tiles Demo.start)) false 0 1 = true ∧
  buyTile 0 0 0 Demo.start = Some (false, Demo.start).
Proof.
  split.
  - destruct (Tile_isAdjacent_agrees Demo.start 0 1 emptyTile)
      as (Hsame & Hbought & _); [vm_compute; reflexivity|].
    pose proof (Hsame true ltac:(vm_compute; reflexivity)) as _.
    exact (Hbought 0%nat Demo.bought DemoFacts.buy_start).
  - destruct (Tile_isAdjacent_agrees Demo.start 0 0 emptyTile)
      as (_ & _ & Hrefused); [vm_compute; reflexivity|].
    apply Hrefused; vm_compute; reflexivity.
Defined.

(** The tile bought in the fresh state cannot be bought again. *)
Lemma buyTile_not_twice_witness :
  buyTile 1 0 1 Demo.bought = Some (false, Demo.bought).
Proof.
  exact (buyTile_not_twice Demo.start Demo.bought 0 0 1
           DemoFacts.buy_start 1%nat).
Defined.

(** The purchase in the fresh state leaves the wood alone. *)
Lemma buyTile_spends_gold_only_witness :
  resources Demo.bought !! wood = Some 40%float.
Proof.
  exact (buyTile_spends_gold_only Demo.start Demo.bought 0 0 1 wood
           DemoFacts.buy_start ltac:(discriminate)).
Defined.

(** After the purchase at (0, 1) the corner (0, 0) is adjacent. *)
Lemma buyTile_opens_neighbours_witness :
  isAdjacentToOwned (tiles Demo.bought) 0 0 = Some true.
Proof.
  apply (buyTile_opens_neighbours Demo.start Demo.bought 0 0 1 0 0
           DemoFacts.buy_start).
  - apply DemoFacts.inBounds_demo. lia.
  - right. right. by left.
Defined.

(** The upgraded state answers an upgrade and a purchase. *)
Lemma reachable_never_throws_witness :
  is_Some (upgradeCastle Demo.upgraded) ∧
  is_Some (buyTile 1 2 2 Demo.upgraded).
Proof.
  destruct (reachable_never_throws Demo.upgraded
              DemoFacts.reachable_upgraded) as [Hup Hbuy].
  split; [exact Hup|]. apply Hbuy.
  - apply DemoFacts.inBounds_demo. lia.
  - vm_compute. lia.
Defined.

(** The rates stored in the upgraded state are those of its grid. *)
Lemma rates_never_stale_witness :
  calculateResourceRates (tiles Demo.upgraded)
    = Some (resourceRates Demo.upgraded).
Proof.
  exact (proj1 (rates_never_stale Demo.upgraded
                  DemoFacts.reachable_upgraded)).
Defined.

(** The upgraded state still has three rows. *)
Lemma grid_dimensions_constant_witness :
  length (tiles Demo.upgraded) = 3%nat.
Proof.
  exact (proj1 (grid_dimensions_constant Demo.upgraded
                  DemoFacts.reachable_upgraded ltac:(reflexivity))).
Defined.

(** The castle of the upgraded state. *)
Lemma castle_level_and_cost_witness : castleLevelInvariant Demo.upgraded.
Proof.
  exact (castle_level_and_cost Demo.upgraded DemoFacts.reachable_upgraded).
Defined.

(** The biome of an unowned tile does not reach the rates. *)
Lemma rates_ignore_unowned_witness :
  calculateResourceRates Demo.oneCastle
    = calculateResourceRates Demo.oneCastleForest.
Proof.
  apply rates_ignore_unowned. intros x y Hin.
  demo_cells x y Hin; vm_compute; constructor;
    first [left; reflexivity | right; split; reflexivity].
Defined.

(** The forest bought in the fresh state has a factor for wood only: the
    base rates and the gold rate are those of the fresh state. *)
Lemma purchase_rate_locality_witness :
  base (resourceRates Demo.bought) = base (resourceRates Demo.start) ∧
  total (resourceRates Demo.bought) !! gold
    = total (resourceRates Demo.start) !! gold.
Proof.
  destruct (purchase_rate_locality Demo.start Demo.bought 0 0 1
              (resourceRates Demo.start) (mkBiome (<[wood := 1.5%float]> ∅))
              DemoFacts.buy_start)
    as [Hbase Hrest]; [vm_compute; reflexivity..|].
  split; [exact Hbase|].
  exact (proj2 (Hrest gold ltac:(vm_compute; reflexivity))).
Defined.

(** No castle, or a castle at its last level: the upgrade is refused. *)
Lemma upgradeCastle_refuses_witness :
  upgradeCastle Demo.noCastle = Some (false, Demo.noCastle) ∧
  upgradeCastle Demo.maxed = Some (false, Demo.maxed).
Proof.
  split.
  - apply (upgradeCastle_refuses Demo.noCastle); [vm_compute; reflexivity|].
    intros x y tile Hin Htile.
    demo_cells x y Hin; vm_compute in Htile; injection Htile as <-;
      discriminate.
  - destruct (upgradeCastle_refuses Demo.maxed) as [_ Hcastle];
      [vm_compute; reflexivity|].
    eapply (Hcastle _ 1 1).
    + apply DemoFacts.inBounds_demo. lia.
    + vm_compute. reflexivity.
    + reflexivity.
    + intros x y tile Hin Htile Hb.
      demo_cells x y Hin; vm_compute in Htile; injection Htile as <-;
        first [done | discriminate Hb].
    + right. left. reflexivity.
Defined.

(** Without a gold entry the purchase left of the castle goes through and
    leaves NaN. *)
Lemma buyTile_without_gold_witness :
  ∃ s', buyTile 0 0 1 Demo.penniless = Some (true, s') ∧
        resources s' !! gold = Some PrimFloat.nan.
Proof.
  destruct (buyTile_without_gold Demo.penniless 0 0 1 emptyTile)
    as (s' & Hbuy & Hgold).
  - apply DemoFacts.inBounds_demo. lia.
  - vm_compute. reflexivity.
  - vm_compute. lia.
  - vm_compute. reflexivity.
  - reflexivity.
  - right. left. split; [apply DemoFacts.inBounds_demo; lia|].
    eexists. split; vm_compute; reflexivity.
  - reflexivity.
  - vm_compute. reflexivity.
  - exists s'. split; [exact Hbuy|]. rewrite Hgold. vm_compute. reflexivity.
Defined.

(** One owned tile before the purchase, two after it and after the
    upgrade. *)
Lemma owned_count_witness :
  countOwned (tiles Demo.bought) = S (countOwned (tiles Demo.start)) ∧
  countOwned (tiles Demo.upgraded) = countOwned (tiles Demo.bought).
Proof.
  split.
  - exact (proj1 (owned_count Demo.start) _ _ _ _ DemoFacts.buy_start).
  - exact (proj1 (proj2 (owned_count Demo.bought)) _
             DemoFacts.upgrade_bought).
Defined.

(** A click on the cell left of the castle of the fresh state, which the
    player can afford, buys it. *)
Lemma click_reaches_buyTile_witness :
  ∃ ok s', buyTile 0 0 1 Demo.start = Some (ok, s') ∧ ok = true.
Proof.
  destruct (click_reaches_buyTile Demo.start 0 0 1 emptyTile
              false false None false true true)
    as (_ & _ & _ & _ & Hbuy); [vm_compute; reflexivity..|].
  destruct Hbuy as (ok & s' & Hbuy & Hok).
  - apply DemoFacts.inBounds_demo. lia.
  - vm_compute. reflexivity.
  - vm_compute. lia.
  - exists ok, s'. split; [exact Hbuy|]. apply Hok. vm_compute. reflexivity.
Defined.

(** A quarter of a second, or no time at all, on the fresh state: the xp
    holding, 0 under a rate of [NaN], is [NaN]. *)
Lemma tick_nonfinite_rate_witness :
  resources (tick 250%float Demo.start) !! xp = Some nan ∧
  resources (tick 0%float Demo.start) !! xp = Some nan.
Proof.
  destruct (tick_nonfinite_rate Demo.start xp nan) as [Hnan Hzero];
    [vm_compute; reflexivity|].
  split; [by apply Hnan|]. apply Hzero. vm_compute. reflexivity.
Defined.

(** The small configuration has a base rate for xp: after the purchase and
    the upgrade the stored rate of xp is [NaN], and so is the holding
    after a second. *)
Lemma xp_rate_is_NaN_witness :
  total (resourceRates Demo.upgraded) !! xp = Some nan ∧
  resources (tick 1000%float Demo.upgraded) !! xp = Some nan.
Proof.
  destruct (@xp_rate_is_NaN Demo.config) as [_ Hreach];
    [vm_compute; by eexists|].
  destruct (Hreach Demo.upgraded DemoFacts.reachable_upgraded) as [Hr Ht].
  split; [exact Hr|apply Ht].
Defined.
